(** * tronlib: the two-player light-cycle board and its turn driver

    A shallow embedding of [src/tronlib.py].  The numpy array that holds the
    grid is modelled as a shape together with a row-major buffer, indexed the
    way numpy indexes it (negative indices count from the end of an axis, an
    index outside [-len, len) raises [IndexError]).  Python exceptions are
    modelled by a result type; the methods of [TronBoard], which mutate
    [self], are written in a state-and-exception monad whose state is the
    board object, so that a mutation made before an exception is kept.

    Coordinates and directions are Python integers and are modelled in [Z];
    the fixed-width storage numpy gives to [self.p1] and [self.p2] is not
    modelled.  The grid cells are floats holding the integers 0..4 and are
    modelled in [Z] as well.

    An index is read by [getitem] and [setitem] as numpy reads one that
    fits a C long, that is one in [-2^63, 2^63), which every coordinate of a
    grid and every neighbour of one is.  What numpy does with a larger
    Python integer is in [prepare_index], and [valid_move_call] is
    [valid_move] called on any pair of Python integers.  The failure of
    [np.zeros] to allocate a grid is not modelled. *)

From stdpp Require Import base list.
From Stdlib Require Import ZArith Lia.

Local Open Scope Z_scope.

(** ** Python results *)

Inductive exn : Set :=
| AssertionError
| ValueError
| IndexError
| StopIteration
| OverflowError.

Inductive result (A : Type) : Type :=
| Ok (a : A)
| Raise (e : exn).

Arguments Ok {A} a.
Arguments Raise {A} e.

Definition is_ok {A} (r : result A) : bool :=
  match r with Ok _ => true | Raise _ => false end.

(** A position or a direction: a pair of integers, [(x, y)]. *)
Definition vec : Type := Z * Z.

Definition vec_add (a b : vec) : vec := (a.1 + b.1, a.2 + b.2).

(** [(a == b).all()] on two arrays of length two. *)
Definition vec_eqb (a b : vec) : bool := (a.1 =? b.1) && (a.2 =? b.2).

(** ** The numpy array *)

Record ndarray : Type := mk_ndarray {
  shape : Z * Z;
  data : list Z
}.

(** [np.zeros((n, m))]: negative dimensions are refused. *)
Definition zeros (n m : Z) : result ndarray :=
  if (n <? 0) || (m <? 0) then Raise ValueError
  else Ok (mk_ndarray (n, m) (replicate (Z.to_nat (n * m)) 0)).

(** One index along an axis of length [len]: numpy accepts [-len <= i < len]
    and reads a negative index from the end. *)
Definition axis_index (i len : Z) : option Z :=
  if (0 <=? i) && (i <? len) then Some i
  else if (- len <=? i) && (i <? 0) then Some (i + len)
  else None.

Definition offset (a : ndarray) (idx : vec) : option nat :=
  match axis_index idx.1 (shape a).1, axis_index idx.2 (shape a).2 with
  | Some i, Some j => Some (Z.to_nat (i * (shape a).2 + j))
  | _, _ => None
  end.

(** [a[idx]], for an index that fits a C long *)
Definition getitem (a : ndarray) (idx : vec) : result Z :=
  match offset a idx with
  | Some k =>
      match data a !! k with
      | Some c => Ok c
      | None => Raise IndexError
      end
  | None => Raise IndexError
  end.

(** [a[idx] = v], for an index that fits a C long *)
Definition setitem (a : ndarray) (idx : vec) (v : Z) : result ndarray :=
  match offset a idx with
  | Some k =>
      match data a !! k with
      | Some _ => Ok (mk_ndarray (shape a) (<[k := v]> (data a)))
      | None => Raise IndexError
      end
  | None => Raise IndexError
  end.

(** How numpy reads one Python integer of an index, before it looks at the
    array: it is converted to a C long.  One that does not fit is turned
    into an array first: from 2^63 up to 2^64 - 1 that array is an unsigned
    integer, whose conversion to a C long raises [OverflowError]; any other
    one gives an array of objects, refused as an index with [IndexError]. *)
Inductive index_reading : Set :=
| IndexFits
| IndexTooBig
| IndexNotInteger.

Definition read_index (i : Z) : index_reading :=
  if (- 2 ^ 63 <=? i) && (i <? 2 ^ 63) then IndexFits
  else if (2 ^ 63 <=? i) && (i <? 2 ^ 64) then IndexTooBig
  else IndexNotInteger.

(** The two components of an index are read from left to right, and the
    first that does not fit decides the exception. *)
Definition prepare_index (idx : vec) : result unit :=
  match read_index idx.1 with
  | IndexTooBig => Raise OverflowError
  | IndexNotInteger => Raise IndexError
  | IndexFits =>
      match read_index idx.2 with
      | IndexTooBig => Raise OverflowError
      | IndexNotInteger => Raise IndexError
      | IndexFits => Ok tt
      end
  end.

(** [(rows == v).any()], which is what [v in rows] means for a numpy array
    [rows] of shape (k, 2): the comparison is broadcast over the rows and is
    true as soon as one component of one row matches. *)
Definition ndarray_contains (rows : list vec) (v : vec) : bool :=
  existsb (fun r => (r.1 =? v.1) || (r.2 =? v.2)) rows.

(** Number of cells of the array that hold [v]. *)
Definition count_cells (v : Z) (a : ndarray) : nat :=
  length (filter (fun c => c = v) (data a)).

(** ** class TronBoard *)

Module TronBoard.

Definition EMPTY : Z := 0.
Definition PLAYER1_POSITION : Z := 1.
Definition PLAYER2_POSITION : Z := 2.
Definition VISITED1 : Z := 3.
Definition VISITED2 : Z := 4.
Definition VALID_VECTORS : list vec := [(0, 1); (0, -1); (1, 0); (-1, 0)].

Record t : Type := mk {
  board : ndarray;
  gameover : bool;
  winner : option Z;
  p1 : vec;
  p2 : vec;
  v1 : vec;
  v2 : vec
}.

Definition set_board (a : ndarray) (self : t) : t :=
  mk a (gameover self) (winner self) (p1 self) (p2 self) (v1 self) (v2 self).
Definition set_gameover (g : bool) (self : t) : t :=
  mk (board self) g (winner self) (p1 self) (p2 self) (v1 self) (v2 self).
Definition set_winner (w : option Z) (self : t) : t :=
  mk (board self) (gameover self) w (p1 self) (p2 self) (v1 self) (v2 self).
Definition set_p1 (p : vec) (self : t) : t :=
  mk (board self) (gameover self) (winner self) p (p2 self) (v1 self) (v2 self).
Definition set_p2 (p : vec) (self : t) : t :=
  mk (board self) (gameover self) (winner self) (p1 self) p (v1 self) (v2 self).

(** [__init__(self, n, m, p1, p2, v1, v2)], for positions that fit a C long
    and a grid that [np.zeros] can allocate *)
Definition init (n m : Z) (p1 p2 v1 v2 : vec) : result t :=
  if decide (p1 = p2) then Raise AssertionError
  else
    match zeros n m with
    | Raise e => Raise e
    | Ok board0 =>
        match setitem board0 p1 PLAYER1_POSITION with
        | Raise e => Raise e
        | Ok board1 =>
            match setitem board1 p2 PLAYER2_POSITION with
            | Raise e => Raise e
            | Ok board2 => Ok (mk board2 false None p1 p2 v1 v2)
            end
        end
    end.

(** [valid_move(self, move)]; the [IndexError] of the lookup is caught. *)
Definition valid_move (self : t) (move : vec) : bool :=
  if (move.1 <? 0) || (move.2 <? 0) then false
  else
    match getitem (board self) move with
    | Ok c => c =? EMPTY
    | Raise _ => false
    end.

(** [valid_move(self, move)] on any pair of Python integers: the [except]
    clause catches the [IndexError] of the lookup and nothing else, so the
    [OverflowError] of an index that is too big leaves the method. *)
Definition valid_move_call (self : t) (move : vec) : result bool :=
  if (move.1 <? 0) || (move.2 <? 0) then Ok false
  else
    match prepare_index move with
    | Ok _ => Ok (valid_move self move)
    | Raise IndexError => Ok false
    | Raise e => Raise e
    end.

(** *** Methods that mutate [self] *)

Definition M (A : Type) : Type := t -> result A * t.

Definition ret {A} (a : A) : M A := fun self => (Ok a, self).
Definition raise {A} (e : exn) : M A := fun self => (Raise e, self).
Definition bind {A B} (c : M A) (k : A -> M B) : M B :=
  fun self =>
    match c self with
    | (Ok a, self') => k a self'
    | (Raise e, self') => (Raise e, self')
    end.
Definition read {A} (f : t -> A) : M A := fun self => (Ok (f self), self).
Definition write (f : t -> t) : M unit := fun self => (Ok tt, f self).
Definition lift {A} (f : t -> result A) : M A := fun self => (f self, self).

Declare Scope tron_scope.
Delimit Scope tron_scope with tron.
Notation "x <~ c ;; k" := (bind c (fun x => k))
  (at level 100, c at next level, right associativity) : tron_scope.
Notation "c ;;; k" := (bind c (fun _ => k))
  (at level 100, right associativity) : tron_scope.

Local Open Scope tron_scope.

(** [self.board[tuple(pos)] = v] *)
Definition board_set (pos : vec) (v : Z) : M unit :=
  a <~ lift (fun self => setitem (board self) pos v) ;;
  write (set_board a).

(** [self.board[tuple(pos)]] *)
Definition board_get (pos : vec) : M Z :=
  lift (fun self => getitem (board self) pos).

(** [x if x is not None else self.v] *)
Definition or_previous (move : option vec) (v : t -> vec) : M vec :=
  match move with
  | None => read v
  | Some d => ret d
  end.

(** The test of lines 90 and 95:
    [(not self.valid_move(pos)) or self.board[tuple(pos)] != EMPTY]. *)
Definition blocked (pos : vec) : M bool :=
  ok <~ read (fun self => valid_move self pos) ;;
  if negb ok then ret true
  else c <~ board_get pos ;; ret (negb (c =? EMPTY)).

(** Lines 81-82: the cells the players stand on become their trails. *)
Definition mark_trails : M unit :=
  old1 <~ read p1 ;;
  board_set old1 VISITED1 ;;;
  old2 <~ read p2 ;;
  board_set old2 VISITED2.

(** Lines 90-94: player 1 dies, or occupies its new position. The result
    is [p1_dead]. *)
Definition try_move1 (p1_new_position : vec) : M bool :=
  b <~ blocked p1_new_position ;;
  if b then ret true
  else
    board_set p1_new_position PLAYER1_POSITION ;;;
    write (set_p1 p1_new_position) ;;;
    ret false.

(** Lines 95-99: the same for player 2, on the board player 1 has just
    written to. The result is [p2_dead]. *)
Definition try_move2 (p2_new_position : vec) : M bool :=
  b <~ blocked p2_new_position ;;
  if b then ret true
  else
    board_set p2_new_position PLAYER2_POSITION ;;;
    write (set_p2 p2_new_position) ;;;
    ret false.

(** Lines 102-113: the winner, and whether the game goes on. *)
Definition settle (p1_dead p2_dead : bool) : M bool :=
  (if p1_dead then
     write (set_gameover true) ;;;
     (if p2_dead then write (set_winner None)
      else write (set_winner (Some 2)))
   else if p2_dead then
     write (set_gameover true) ;;;
     write (set_winner (Some 1))
   else ret tt) ;;;
  read (fun self => negb (gameover self)).

(** [update(self, player1_move, player2_move)] *)
Definition update (player1_move player2_move : option vec) : M bool :=
  player1_move <~ or_previous player1_move v1 ;;
  player2_move <~ or_previous player2_move v2 ;;
  if negb (ndarray_contains VALID_VECTORS player1_move) then raise ValueError
  else if negb (ndarray_contains VALID_VECTORS player2_move) then raise ValueError
  else
    p1_new_position <~ read (fun self => vec_add (p1 self) player1_move) ;;
    p2_new_position <~ read (fun self => vec_add (p2 self) player2_move) ;;
    if vec_eqb p1_new_position p2_new_position then
      write (set_gameover true) ;;;
      write (set_winner None) ;;;
      ret false
    else
      mark_trails ;;;
      p1_dead <~ try_move1 p1_new_position ;;
      p2_dead <~ try_move2 p2_new_position ;;
      settle p1_dead p2_dead.

End TronBoard.

(** ** class TronGame *)

Module TronGame.

(** A bot: [decide_move(board, player_position)], a direction or [None].
    The bots only read the board. *)
Definition bot : Type := TronBoard.t -> vec -> option vec.

Record t : Type := mk {
  board : TronBoard.t;
  bot1 : bot;
  bot2 : bot
}.

Definition set_board (b : TronBoard.t) (self : t) : t :=
  mk b (bot1 self) (bot2 self).

(** [update(self)], with [show] off: both bots are asked on the board as it
    is before the tick, then the board is updated in place; the value
    returned is the one-element tuple holding the board. *)
Definition update (self : t) : result TronBoard.t * t :=
  let p1_move := bot1 self (board self) (TronBoard.p1 (board self)) in
  let p2_move := bot2 self (board self) (TronBoard.p2 (board self)) in
  match TronBoard.update p1_move p2_move (board self) with
  | (Ok _, b) => (Ok b, set_board b self)
  | (Raise e, b) => (Raise e, set_board b self)
  end.

(** [__next__(self)], which returns [self]. *)
Definition next (self : t) : result t * t :=
  if TronBoard.gameover (board self) then (Raise StopIteration, self)
  else
    match update self with
    | (Ok _, self') => (Ok self', self')
    | (Raise e, self') => (Raise e, self')
    end.

End TronGame.

(** ** Notions the statements are written with *)

Import TronBoard.
Local Open Scope tron_scope.

(** The four axis-aligned unit vectors, as a tagged check. *)
Definition unit_vector (d : vec) : bool :=
  bool_decide (d ∈ VALID_VECTORS).

(** What [v in VALID_VECTORS] lets through. *)
Definition passes_validation (d : vec) : bool :=
  ndarray_contains VALID_VECTORS d.

(** [p] lies in [0, n) x [0, m). *)
Definition inside (n m : Z) (p : vec) : Prop :=
  0 <= p.1 < n /\ 0 <= p.2 < m.

(** [p] is a coordinate of the array [a]. *)
Definition in_grid (a : ndarray) (p : vec) : Prop :=
  inside (shape a).1 (shape a).2 p.

(** The cell of the buffer at row [p.1] and column [p.2]. *)
Definition cell (a : ndarray) (p : vec) : option Z :=
  data a !! Z.to_nat (p.1 * (shape a).2 + p.2).

(** The buffer has one cell per coordinate. *)
Definition wf_array (a : ndarray) : Prop :=
  0 <= (shape a).1 /\ 0 <= (shape a).2 /\
  length (data a) = Z.to_nat ((shape a).1 * (shape a).2).

(** The direction a player moves along this tick. *)
Definition direction1 (b : t) (m : option vec) : vec := default (v1 b) m.
Definition direction2 (b : t) (m : option vec) : vec := default (v2 b) m.

Definition candidate1 (b : t) (m : option vec) : vec :=
  vec_add (p1 b) (direction1 b m).
Definition candidate2 (b : t) (m : option vec) : vec :=
  vec_add (p2 b) (direction2 b m).

(** Both players stand on cells of the array, so lines 81-82 cannot raise. *)
Definition standing (b : t) : Prop :=
  is_ok (getitem (board b) (p1 b)) = true /\
  is_ok (getitem (board b) (p2 b)) = true.

(** The board after a call of [update], whether it returned or raised. *)
Definition after_update (b : t) (m1 m2 : option vec) : t :=
  (update m1 m2 b).2.

Inductive reachable (b0 : t) : t -> Prop :=
| reach_start : reachable b0 b0
| reach_update b m1 m2 :
    reachable b0 b -> reachable b0 (after_update b m1 m2).

(** The moving part of a tick as section 4.1 of the specification words it
    (step 7): both candidates are judged on the grid left by the trail
    marking, and only then are the accepted destinations written. *)
Definition moves_simultaneous (p1_new_position p2_new_position : vec)
  : M (bool * bool) :=
  ok1 <~ read (fun self => valid_move self p1_new_position) ;;
  ok2 <~ read (fun self => valid_move self p2_new_position) ;;
  (if ok1 then
     board_set p1_new_position PLAYER1_POSITION ;;;
     write (set_p1 p1_new_position)
   else ret tt) ;;;
  (if ok2 then
     board_set p2_new_position PLAYER2_POSITION ;;;
     write (set_p2 p2_new_position)
   else ret tt) ;;;
  ret (negb ok1, negb ok2).

(** The moving part of a tick as the code runs it. *)
Definition moves_sequential (p1_new_position p2_new_position : vec)
  : M (bool * bool) :=
  p1_dead <~ try_move1 p1_new_position ;;
  p2_dead <~ try_move2 p2_new_position ;;
  ret (p1_dead, p2_dead).

(** [update] with step 7 replaced by the specification's wording. *)
Definition update_simultaneous (player1_move player2_move : option vec)
  : M bool :=
  player1_move <~ or_previous player1_move v1 ;;
  player2_move <~ or_previous player2_move v2 ;;
  if negb (ndarray_contains VALID_VECTORS player1_move) then raise ValueError
  else if negb (ndarray_contains VALID_VECTORS player2_move) then raise ValueError
  else
    p1_new_position <~ read (fun self => vec_add (p1 self) player1_move) ;;
    p2_new_position <~ read (fun self => vec_add (p2 self) player2_move) ;;
    if vec_eqb p1_new_position p2_new_position then
      write (set_gameover true) ;;;
      write (set_winner None) ;;;
      ret false
    else
      mark_trails ;;;
      dead <~ moves_simultaneous p1_new_position p2_new_position ;;
      settle dead.1 dead.2.

(** ** Notions the proofs are written with *)

(** The array with the cell at a coordinate of the grid overwritten. *)
Definition put (a : ndarray) (p : vec) (v : Z) : ndarray :=
  mk_ndarray (shape a) (<[Z.to_nat (p.1 * (shape a).2 + p.2) := v]> (data a)).

Ltac unfold_monad :=
  unfold bind, ret, raise, read, write, lift in *; simpl in *.

Global Instance inside_dec (n m : Z) (p : vec) : Decision (inside n m p).
Proof. unfold inside. apply _. Defined.

(** What section 4.1 of the specification asks the constructor to refuse. *)
Definition refused_by_spec (n m : Z) (pos1 pos2 dir1 dir2 : vec) : Prop :=
  pos1 = pos2 \/ ~ inside n m pos1 \/ ~ inside n m pos2 \/
  unit_vector dir1 = false \/ unit_vector dir2 = false.

(** [a'] has the shape and size of [a], and every cell of [a] that is not
    empty is not empty in [a'] either. *)
Definition grows (a a' : ndarray) : Prop :=
  shape a' = shape a /\
  length (data a') = length (data a) /\
  forall (k : nat) (c : Z),
    data a !! k = Some c -> c <> EMPTY ->
    exists c', data a' !! k = Some c' /\ c' <> EMPTY.

(** While the game is on, each player stands on the one cell that carries
    its mark. *)
Definition board_inv (b : t) : Prop :=
  wf_array (board b) /\
  (gameover b = false ->
   in_grid (board b) (p1 b) /\ in_grid (board b) (p2 b) /\
   cell (board b) (p1 b) = Some PLAYER1_POSITION /\
   cell (board b) (p2 b) = Some PLAYER2_POSITION /\
   count_cells PLAYER1_POSITION (board b) = 1%nat /\
   count_cells PLAYER2_POSITION (board b) = 1%nat).

(** ** Boards used in the examples *)

(** The 5x5 board of the head-on scenario: player 1 at (1,2) heading right,
    player 2 at (3,2) heading left. *)
Definition board_5x5 : t :=
  mk (mk_ndarray (5, 5)
        [0; 0; 0; 0; 0;
         0; 0; 1; 0; 0;
         0; 0; 0; 0; 0;
         0; 0; 2; 0; 0;
         0; 0; 0; 0; 0])
     false None (1, 2) (3, 2) (1, 0) (-1, 0).

(** The 3x3 board after a head-on draw: player 1 came from (0,0) heading
    right, player 2 from (2,0) heading left, both aimed at (1,0). *)
Definition board_3x3_drawn : t :=
  mk (mk_ndarray (3, 3) [1; 0; 0; 0; 0; 0; 2; 0; 0])
     true None (0, 0) (2, 0) (1, 0) (-1, 0).

(** A fresh 3x3 board: player 1 at (0,0) heading right, player 2 at (2,0)
    heading left. *)
Definition board_3x3 : t :=
  mk (mk_ndarray (3, 3) [1; 0; 0; 0; 0; 0; 2; 0; 0])
     false None (0, 0) (2, 0) (1, 0) (-1, 0).

(** A 3x3 board on which the players face each other on neighbouring
    cells: player 1 at (0,0) heading right, player 2 at (1,0) heading left. *)
Definition board_3x3_facing : t :=
  mk (mk_ndarray (3, 3) [1; 0; 0; 2; 0; 0; 0; 0; 0])
     false None (0, 0) (1, 0) (1, 0) (-1, 0).

(** A 5x5 board with both players on the top row heading the same way:
    player 1 at (0,0) and player 2 at (0,4), both heading (1,0). *)
Definition board_5x5_parallel : t :=
  mk (mk_ndarray (5, 5)
        [1; 0; 0; 0; 2;
         0; 0; 0; 0; 0;
         0; 0; 0; 0; 0;
         0; 0; 0; 0; 0;
         0; 0; 0; 0; 0])
     false None (0, 0) (0, 4) (1, 0) (1, 0).

(** The integers that fit a C long. *)
Definition fits_long (i : Z) : Prop := - 2 ^ 63 <= i < 2 ^ 63.

Definition position_fits (p : vec) : Prop := fits_long p.1 /\ fits_long p.2.

(** The indices numpy accepts on an n x m array: each one may be negative,
    down to minus the length of its axis. *)
Definition index_accepted (n m : Z) (p : vec) : Prop :=
  - n <= p.1 < n /\ - m <= p.2 < m.

(** The coordinate of the grid an accepted index names. *)
Definition wrap_position (n m : Z) (p : vec) : vec :=
  (p.1 `mod` n, p.2 `mod` m).

(** ** class SimpleBot *)

Module SimpleBot.

(** The list the comprehension of [decide_move] builds: the directions of
    [VALID_VECTORS], in that order, whose target [valid_move] accepts. *)
Definition valid_moves (board : TronBoard.t) (player_position : vec) : list vec :=
  List.filter
    (fun move => TronBoard.valid_move board (vec_add player_position move))
    TronBoard.VALID_VECTORS.

(** [decide_move(self, board, player_position)].  [random.choice(seq)]
    returns [seq[k]] for an index [k] below [len(seq)] drawn from the global
    generator; [r] stands for the state of that generator, and the index
    drawn is [r] modulo the length. *)
Definition decide_move (r : nat) (board : TronBoard.t) (player_position : vec)
  : option vec :=
  let valid_moves := valid_moves board player_position in
  match length valid_moves with
  | O => None
  | S _ => valid_moves !! Nat.modulo r (length valid_moves)
  end.

End SimpleBot.

(** ** Driving the board *)

(** A driver that keeps calling [update] with the next pair of moves for as
    long as [update] returns [True]: the result is [Ok true] when every call
    returned [True], and otherwise what the first other call gave. *)
Fixpoint ticks (moves : list (option vec * option vec)) (b : t)
  : result bool * t :=
  match moves with
  | [] => (Ok true, b)
  | (m1, m2) :: rest =>
      match update m1 m2 b with
      | (Ok true, b') => ticks rest b'
      | other => other
      end
  end.

(** [k] calls of [TronGame.__next__] in a row, as a [for] loop over the
    game makes them, stopping at the first one that raises. *)
Fixpoint nexts (k : nat) (g : TronGame.t) : result TronGame.t * TronGame.t :=
  match k with
  | O => (Ok g, g)
  | S k' =>
      match TronGame.next g with
      | (Ok _, g') => nexts k' g'
      | (Raise e, g') => (Raise e, g')
      end
  end.

(** The board is an array of the right size and both players stand on
    coordinates of the grid. *)
Definition board_safe (b : t) : Prop :=
  wf_array (board b) /\ in_grid (board b) (p1 b) /\ in_grid (board b) (p2 b).

(** The board with the two players exchanged: positions, directions, the
    winner and the marks in the cells. *)
Definition swap_mark (c : Z) : Z :=
  if c =? PLAYER1_POSITION then PLAYER2_POSITION
  else if c =? PLAYER2_POSITION then PLAYER1_POSITION
  else if c =? VISITED1 then VISITED2
  else if c =? VISITED2 then VISITED1
  else c.

Definition swap_winner (w : option Z) : option Z :=
  match w with
  | Some k => Some (if k =? 1 then 2 else if k =? 2 then 1 else k)
  | None => None
  end.

Definition swap_array (a : ndarray) : ndarray :=
  mk_ndarray (shape a) (swap_mark <$> data a).

Definition swap_players (b : t) : t :=
  mk (swap_array (board b))
     (gameover b) (swap_winner (winner b)) (p2 b) (p1 b) (v2 b) (v1 b).

(** ** Evaluation on small boards *)

Example ex_init :
  TronBoard.init 2 3 (0, 0) (1, 2) (1, 0) (-1, 0)
  = Ok (TronBoard.mk (mk_ndarray (2, 3) [1; 0; 0; 0; 0; 2]) false None
          (0, 0) (1, 2) (1, 0) (-1, 0)).
Proof. reflexivity. Qed.

(** ** Indexing the array *)

Section indexing.

Implicit Types (a : ndarray) (p q : vec) (i len k : Z).

Lemma axis_index_in i len : 0 <= i < len -> axis_index i len = Some i.
Proof.
  intros H. unfold axis_index.
  destruct (Z.leb_spec 0 i), (Z.ltb_spec i len); simpl; try lia; done.
Qed.

Lemma axis_index_nonneg i len k :
  0 <= i -> axis_index i len = Some k -> k = i /\ i < len.
Proof.
  unfold axis_index. intros Hi.
  destruct (Z.leb_spec 0 i), (Z.ltb_spec i len); simpl; try lia.
  - intros [= <-]. lia.
  - destruct (Z.ltb_spec i 0); [lia|].
    rewrite andb_false_r. discriminate.
Qed.

Lemma axis_index_range i len k : axis_index i len = Some k -> 0 <= k < len.
Proof.
  unfold axis_index.
  destruct (Z.leb_spec 0 i), (Z.ltb_spec i len); simpl;
    try (intros [= <-]; lia);
    destruct (Z.leb_spec (- len) i), (Z.ltb_spec i 0); simpl;
    try discriminate; intros [= <-]; lia.
Qed.

Lemma offset_in_grid a p :
  in_grid a p -> offset a p = Some (Z.to_nat (p.1 * (shape a).2 + p.2)).
Proof.
  intros [H1 H2]. unfold offset.
  by rewrite !axis_index_in.
Qed.

Lemma offset_nonneg a p n :
  0 <= p.1 -> 0 <= p.2 -> offset a p = Some n ->
  in_grid a p /\ n = Z.to_nat (p.1 * (shape a).2 + p.2).
Proof.
  intros H1 H2. unfold offset.
  destruct (axis_index p.1 (shape a).1) as [i|] eqn:Ei; [|done].
  destruct (axis_index p.2 (shape a).2) as [j|] eqn:Ej; [|done].
  apply axis_index_nonneg in Ei as [-> ?]; [|done].
  apply axis_index_nonneg in Ej as [-> ?]; [|done].
  intros [= <-]. unfold in_grid, inside. split; [lia | done].
Qed.

(** Two coordinates of the grid share a cell only when they are equal. *)
Lemma ravel_inj a p q :
  in_grid a p -> in_grid a q ->
  Z.to_nat (p.1 * (shape a).2 + p.2) = Z.to_nat (q.1 * (shape a).2 + q.2) ->
  p = q.
Proof.
  destruct p as [x y], q as [x' y']. unfold in_grid, inside. simpl.
  intros [Hx Hy] [Hx' Hy'] E.
  apply Z2Nat.inj in E; [|nia..].
  assert (x = x') by nia. subst x'.
  f_equal. lia.
Qed.

Lemma getitem_in_grid a p :
  in_grid a p ->
  getitem a p = match cell a p with Some c => Ok c | None => Raise IndexError end.
Proof.
  intros H. unfold getitem, cell. by rewrite offset_in_grid.
Qed.

Lemma cell_wf a p : wf_array a -> in_grid a p -> is_Some (cell a p).
Proof.
  intros (Hn & Hm & Hlen) [H1 H2]. unfold cell.
  apply lookup_lt_is_Some. rewrite Hlen. nia.
Qed.

Lemma setitem_shape a p v a' : setitem a p v = Ok a' -> shape a' = shape a.
Proof.
  unfold setitem. repeat case_match; try done. by intros [= <-].
Qed.

Lemma setitem_length a p v a' :
  setitem a p v = Ok a' -> length (data a') = length (data a).
Proof.
  unfold setitem. repeat case_match; try done. intros [= <-]. simpl.
  apply length_insert.
Qed.

Lemma setitem_wf a p v a' : wf_array a -> setitem a p v = Ok a' -> wf_array a'.
Proof.
  intros (Hn & Hm & Hlen) E. unfold wf_array.
  rewrite (setitem_shape _ _ _ _ E), (setitem_length _ _ _ _ E). done.
Qed.

(** An assignment succeeds exactly where a read does. *)
Lemma setitem_is_ok a p v : is_ok (setitem a p v) = is_ok (getitem a p).
Proof. unfold setitem, getitem. by repeat case_match. Qed.

Lemma offset_setitem a p v a' q :
  setitem a p v = Ok a' -> offset a' q = offset a q.
Proof. intros E. unfold offset. by rewrite (setitem_shape _ _ _ _ E). Qed.

Lemma getitem_setitem_is_ok a p v a' q :
  setitem a p v = Ok a' -> is_ok (getitem a' q) = is_ok (getitem a q).
Proof.
  intros E. unfold getitem. rewrite (offset_setitem _ _ _ _ _ E).
  destruct (offset a q) as [k|]; [|done].
  assert (is_Some (data a' !! k) <-> is_Some (data a !! k)) as Hs.
  { rewrite !lookup_lt_is_Some. by rewrite (setitem_length _ _ _ _ E). }
  destruct (data a' !! k), (data a !! k); try done;
    destruct Hs as [H1 H2]; [destruct H1 | destruct H2]; by eauto.
Qed.

End indexing.

(** ** The move check *)

Lemma valid_move_iff (self : t) (move : vec) :
  valid_move self move = true <->
  in_grid (board self) move /\ cell (board self) move = Some EMPTY.
Proof.
  unfold valid_move. split.
  - destruct (Z.ltb_spec move.1 0), (Z.ltb_spec move.2 0); simpl; try done.
    unfold getitem.
    destruct (offset (board self) move) as [k|] eqn:Ek; [|done].
    apply offset_nonneg in Ek as [Hg ->]; [|done..].
    unfold cell.
    destruct (data (board self) !! _) as [c|]; [|done].
    intros ->%Z.eqb_eq. done.
  - intros [Hg Hc]. pose proof Hg as [H1 H2].
    destruct (Z.ltb_spec move.1 0), (Z.ltb_spec move.2 0); simpl; try lia.
    rewrite getitem_in_grid, Hc; done.
Qed.

Lemma valid_move_call_fits (self : t) (move : vec) :
  move.1 < 2 ^ 63 -> move.2 < 2 ^ 63 ->
  valid_move_call self move = Ok (valid_move self move).
Proof.
  intros H1 H2. unfold valid_move_call, valid_move.
  destruct ((move.1 <? 0) || (move.2 <? 0)) eqn:Eneg; [done|].
  apply orb_false_iff in Eneg as [N1%Z.ltb_ge N2%Z.ltb_ge].
  assert (read_index move.1 = IndexFits) as R1.
  { unfold read_index.
    destruct (Z.leb_spec (- 2 ^ 63) move.1), (Z.ltb_spec move.1 (2 ^ 63));
      cbn [andb]; try done; lia. }
  assert (read_index move.2 = IndexFits) as R2.
  { unfold read_index.
    destruct (Z.leb_spec (- 2 ^ 63) move.2), (Z.ltb_spec move.2 (2 ^ 63));
      cbn [andb]; try done; lia. }
  unfold prepare_index. by rewrite R1, R2.
Qed.

(** C6 fails as stated: (2^63, 0) lies outside a 3x3 grid, and the call
    does not answer false; the lookup raises [OverflowError], which the
    [except IndexError] clause lets through. *)
Lemma valid_move_raises_OverflowError :
  ~ in_grid (board board_3x3) (2 ^ 63, 0) /\
  valid_move_call board_3x3 (2 ^ 63, 0) = Raise OverflowError /\
  valid_move_call board_3x3 (2 ^ 63, 0) <> Ok false.
Proof.
  split; [|split].
  - unfold in_grid, inside. simpl. lia.
  - reflexivity.
  - vm_compute. congruence.
Qed.

(** C6, amended: for a coordinate pair whose components are below 2^63,
    [valid_move] returns, and it answers true exactly for a coordinate of
    the grid whose cell is empty; it answers false for every such coordinate
    outside the grid, negative ones of any size included, and for every
    coordinate of the grid whose cell holds a player or a trail. *)
Theorem valid_move_correct (self : t) (move : vec) :
  move.1 < 2 ^ 63 -> move.2 < 2 ^ 63 ->
  valid_move_call self move = Ok (valid_move self move) /\
  (valid_move_call self move = Ok true <->
   in_grid (board self) move /\ cell (board self) move = Some EMPTY) /\
  (~ in_grid (board self) move -> valid_move_call self move = Ok false) /\
  (forall c, in_grid (board self) move -> cell (board self) move = Some c ->
             c <> EMPTY -> valid_move_call self move = Ok false).
Proof.
  intros H1 H2. rewrite (valid_move_call_fits self move H1 H2).
  split; [done|]. split; [|split].
  - rewrite <- valid_move_iff. split; [by intros [= ->] | by intros ->].
  - intros Hout. f_equal. apply not_true_is_false. rewrite valid_move_iff. tauto.
  - intros c _ Hc Hne. f_equal. apply not_true_is_false. rewrite valid_move_iff.
    intros [_ Hc']. congruence.
Qed.

(** ** The steps of [update], one at a time *)

Lemma setitem_put (a : ndarray) (p : vec) (v : Z) :
  in_grid a p -> is_Some (cell a p) -> setitem a p v = Ok (put a p v).
Proof.
  intros Hg [c Hc]. unfold setitem. rewrite offset_in_grid by done.
  unfold cell in Hc. by rewrite Hc.
Qed.

Lemma blocked_eq (pos : vec) (self : t) :
  blocked pos self = (Ok (negb (valid_move self pos)), self).
Proof.
  unfold blocked, board_get. unfold_monad.
  destruct (valid_move self pos) eqn:E; simpl; [|done].
  apply valid_move_iff in E as [Hg Hc].
  rewrite getitem_in_grid, Hc; done.
Qed.

Lemma board_set_eq (pos : vec) (v : Z) (self : t) :
  board_set pos v self =
  match setitem (board self) pos v with
  | Ok a => (Ok tt, set_board a self)
  | Raise e => (Raise e, self)
  end.
Proof. unfold board_set. unfold_monad. by destruct (setitem _ _ _). Qed.

Lemma mark_trails_eq (self : t) :
  mark_trails self =
  match setitem (board self) (p1 self) VISITED1 with
  | Raise e => (Raise e, self)
  | Ok a1 =>
      match setitem a1 (p2 self) VISITED2 with
      | Raise e => (Raise e, set_board a1 self)
      | Ok a2 => (Ok tt, set_board a2 self)
      end
  end.
Proof.
  unfold mark_trails, bind at 1 2 3, read. simpl.
  rewrite !board_set_eq.
  destruct (setitem _ _ _) as [a1|e]; simpl; [|done].
  rewrite board_set_eq. simpl. by destruct (setitem _ _ _).
Qed.

Lemma try_move1_eq (pos : vec) (self : t) :
  try_move1 pos self =
  if valid_move self pos
  then (Ok false, set_p1 pos (set_board (put (board self) pos PLAYER1_POSITION) self))
  else (Ok true, self).
Proof.
  unfold try_move1, bind at 1. rewrite blocked_eq.
  destruct (valid_move self pos) eqn:E; simpl; [|done].
  apply valid_move_iff in E as [Hg Hc].
  unfold bind at 1. rewrite board_set_eq, setitem_put by (by eauto). done.
Qed.

Lemma try_move2_eq (pos : vec) (self : t) :
  try_move2 pos self =
  if valid_move self pos
  then (Ok false, set_p2 pos (set_board (put (board self) pos PLAYER2_POSITION) self))
  else (Ok true, self).
Proof.
  unfold try_move2, bind at 1. rewrite blocked_eq.
  destruct (valid_move self pos) eqn:E; simpl; [|done].
  apply valid_move_iff in E as [Hg Hc].
  unfold bind at 1. rewrite board_set_eq, setitem_put by (by eauto). done.
Qed.

Lemma settle_eq (p1_dead p2_dead : bool) (self : t) :
  settle p1_dead p2_dead self =
  match p1_dead, p2_dead with
  | true, true => (Ok false, set_winner None (set_gameover true self))
  | true, false => (Ok false, set_winner (Some 2) (set_gameover true self))
  | false, true => (Ok false, set_winner (Some 1) (set_gameover true self))
  | false, false => (Ok (negb (gameover self)), self)
  end.
Proof. by destruct p1_dead, p2_dead. Qed.

(** [update], with the substitution of [None] and the two tests spelled out
    on the board it is called on. *)
Lemma update_eq (m1 m2 : option vec) (b : t) :
  update m1 m2 b =
  if negb (passes_validation (direction1 b m1)) then (Raise ValueError, b)
  else if negb (passes_validation (direction2 b m2)) then (Raise ValueError, b)
  else if vec_eqb (candidate1 b m1) (candidate2 b m2)
  then (Ok false, set_winner None (set_gameover true b))
  else
    match mark_trails b with
    | (Raise e, b') => (Raise e, b')
    | (Ok _, b6) =>
        match try_move1 (candidate1 b m1) b6 with
        | (Raise e, b') => (Raise e, b')
        | (Ok p1_dead, b7) =>
            match try_move2 (candidate2 b m2) b7 with
            | (Raise e, b') => (Raise e, b')
            | (Ok p2_dead, b8) => settle p1_dead p2_dead b8
            end
        end
    end.
Proof.
  unfold update, passes_validation, candidate1, candidate2, direction1, direction2.
  destruct m1 as [d1|], m2 as [d2|]; unfold or_previous; unfold_monad;
    repeat (case_match; simpl; try done).
Qed.

(** ** What [update] checks, and what it leaves alone *)

Lemma setitem_raises (a : ndarray) (p : vec) (v : Z) (e : exn) :
  setitem a p v = Raise e -> e = IndexError.
Proof. unfold setitem. repeat case_match; congruence. Qed.

Lemma mark_trails_raises (b b' : t) (e : exn) :
  mark_trails b = (Raise e, b') -> e = IndexError.
Proof.
  rewrite mark_trails_eq.
  destruct (setitem (board b) _ _) as [a1|e1] eqn:E1.
  - destruct (setitem a1 _ _) as [a2|e2] eqn:E2; [done|].
    intros [= <- _]. by eapply setitem_raises.
  - intros [= <- _]. by eapply setitem_raises.
Qed.

(** The membership test looks at the two components separately. *)
Lemma passes_validation_iff (d : vec) :
  passes_validation d = true <->
  (-1 <= d.1 <= 1) \/ (-1 <= d.2 <= 1).
Proof.
  destruct d as [x y].
  unfold passes_validation, ndarray_contains, VALID_VECTORS.
  cbn [existsb fst snd].
  destruct (Z.eqb_spec 0 x), (Z.eqb_spec 1 y), (Z.eqb_spec (-1) y),
    (Z.eqb_spec 1 x), (Z.eqb_spec 0 y), (Z.eqb_spec (-1) x);
    cbn [orb]; split; try done; lia.
Qed.

Lemma unit_vector_passes (d : vec) :
  unit_vector d = true -> passes_validation d = true.
Proof.
  unfold unit_vector, VALID_VECTORS. intros H%bool_decide_eq_true.
  apply passes_validation_iff.
  repeat (apply elem_of_cons in H as [->|H]; [simpl; lia|]).
  by apply elem_of_nil in H.
Qed.

Lemma update_ValueError_iff (m1 m2 : option vec) (b : t) :
  (update m1 m2 b).1 = Raise ValueError <->
  passes_validation (direction1 b m1) = false \/
  passes_validation (direction2 b m2) = false.
Proof.
  rewrite update_eq.
  destruct (passes_validation (direction1 b m1)); simpl; [|by intuition].
  destruct (passes_validation (direction2 b m2)); simpl; [|by intuition].
  split; [|by intros [|]].
  destruct (vec_eqb _ _); [done|].
  destruct (mark_trails b) as [[[]|e] b6] eqn:E6.
  - rewrite try_move1_eq. destruct (valid_move b6 _);
      rewrite try_move2_eq; destruct (valid_move _ _);
      rewrite settle_eq; done.
  - apply mark_trails_raises in E6 as ->. done.
Qed.

Lemma board_5x5_init :
  init 5 5 (1, 2) (3, 2) (1, 0) (-1, 0) = Ok board_5x5.
Proof. reflexivity. Qed.

(** C1: [update] raises [ValueError] exactly when the membership test
    [move not in VALID_VECTORS] fires, and that test lets a direction through
    as soon as one of its components is -1, 0 or 1.  The diagonal (1,1) is
    not one of the four unit vectors, yet [update] takes it and moves player
    1 diagonally from (1,2) to (2,3). *)
Theorem update_accepts_diagonal :
  (forall (b : t) (m1 m2 : option vec),
     (update m1 m2 b).1 = Raise ValueError <->
     passes_validation (direction1 b m1) = false \/
     passes_validation (direction2 b m2) = false) /\
  (forall d : vec,
     passes_validation d = true <-> (-1 <= d.1 <= 1) \/ (-1 <= d.2 <= 1)) /\
  unit_vector (1, 1) = false /\
  update (Some (1, 1)) (Some (0, 1)) board_5x5 =
    (Ok true,
     mk (mk_ndarray (5, 5)
           [0; 0; 0; 0; 0;
            0; 0; 3; 0; 0;
            0; 0; 0; 1; 0;
            0; 0; 4; 2; 0;
            0; 0; 0; 0; 0])
        false None (2, 3) (3, 3) (1, 0) (-1, 0)).
Proof.
  split; [intros; apply update_ValueError_iff|].
  split; [apply passes_validation_iff|].
  split; reflexivity.
Qed.

Lemma try_move1_v (pos : vec) (b : t) :
  v1 (try_move1 pos b).2 = v1 b /\ v2 (try_move1 pos b).2 = v2 b.
Proof. rewrite try_move1_eq. by destruct (valid_move b pos). Qed.

Lemma try_move2_v (pos : vec) (b : t) :
  v1 (try_move2 pos b).2 = v1 b /\ v2 (try_move2 pos b).2 = v2 b.
Proof. rewrite try_move2_eq. by destruct (valid_move b pos). Qed.

Lemma mark_trails_v (b : t) :
  v1 (mark_trails b).2 = v1 b /\ v2 (mark_trails b).2 = v2 b.
Proof. rewrite mark_trails_eq. by repeat case_match. Qed.

Lemma settle_v (d1 d2 : bool) (b : t) :
  v1 (settle d1 d2 b).2 = v1 b /\ v2 (settle d1 d2 b).2 = v2 b.
Proof. rewrite settle_eq. by destruct d1, d2. Qed.

Lemma update_v (m1 m2 : option vec) (b : t) :
  v1 (after_update b m1 m2) = v1 b /\ v2 (after_update b m1 m2) = v2 b.
Proof.
  unfold after_update. rewrite update_eq.
  destruct (negb _); [done|]. destruct (negb _); [done|].
  destruct (vec_eqb _ _); [done|].
  pose proof (mark_trails_v b) as [A1 A2].
  destruct (mark_trails b) as [[[]|e] b6]; simpl in *; [|done].
  pose proof (try_move1_v (candidate1 b m1) b6) as [B1 B2].
  destruct (try_move1 _ b6) as [[d1|e] b7]; simpl in *; [|split; congruence].
  pose proof (try_move2_v (candidate2 b m2) b7) as [C1 C2].
  destruct (try_move2 _ b7) as [[d2|e] b8]; simpl in *; [|split; congruence].
  destruct (settle_v d1 d2 b8). split; congruence.
Qed.

(** C3: [update] never assigns [self.v1] or [self.v2]; the direction that
    replaces [None] is the one given to the constructor, whatever was applied
    since.  On a 5x5 board with player 1 at (0,0) constructed heading (1,0),
    a tick along (0,1) followed by a tick with [None] moves player 1 from
    (0,1) to (1,1), not to (0,2). *)
Theorem update_keeps_constructor_direction :
  (forall (b : t) (m1 m2 : option vec),
     v1 (after_update b m1 m2) = v1 b /\ v2 (after_update b m1 m2) = v2 b) /\
  (exists b0 : t,
     init 5 5 (0, 0) (4, 4) (1, 0) (-1, 0) = Ok b0 /\
     let b1 := after_update b0 (Some (0, 1)) (Some (0, -1)) in
     let b2 := after_update b1 None None in
     p1 b1 = (0, 1) /\ v1 b1 = (1, 0) /\
     (update None None b1).1 = Ok true /\
     p1 b2 = (1, 1) /\ p1 b2 <> (0, 2)).
Proof.
  split; [intros; apply update_v|].
  eexists. split; [reflexivity|]. vm_compute. repeat split; congruence.
Qed.

(** ** The head-on rule *)

Lemma vec_eqb_eq (a b : vec) : vec_eqb a b = true <-> a = b.
Proof.
  destruct a as [x y], b as [x' y']. unfold vec_eqb. simpl.
  rewrite andb_true_iff, !Z.eqb_eq. split; [intros [-> ->]; done|].
  by intros [= -> ->].
Qed.

Lemma vec_eqb_neq (a b : vec) : vec_eqb a b = false <-> a <> b.
Proof.
  rewrite <- vec_eqb_eq. destruct (vec_eqb a b); split; congruence.
Qed.

(** C5: when both directions pass the check and the two candidate positions,
    computed from the positions before the tick, coincide, [update] returns
    false with the game over and no winner, and writes no cell and moves no
    player. *)
Theorem head_on_is_a_draw (b : t) (m1 m2 : option vec) :
  passes_validation (direction1 b m1) = true ->
  passes_validation (direction2 b m2) = true ->
  candidate1 b m1 = candidate2 b m2 ->
  (update m1 m2 b).1 = Ok false /\
  gameover (after_update b m1 m2) = true /\
  winner (after_update b m1 m2) = None /\
  board (after_update b m1 m2) = board b /\
  p1 (after_update b m1 m2) = p1 b /\
  p2 (after_update b m1 m2) = p2 b.
Proof.
  intros H1 H2 Hc%vec_eqb_eq. unfold after_update.
  rewrite update_eq, H1, H2, Hc. done.
Qed.

(** The scenario of C5: on the 5x5 board both players step onto (2,2). *)
Lemma head_on_is_a_draw_5x5 :
  init 5 5 (1, 2) (3, 2) (1, 0) (-1, 0) = Ok board_5x5 /\
  candidate1 board_5x5 None = (2, 2) /\
  candidate2 board_5x5 None = (2, 2) /\
  (update None None board_5x5).1 = Ok false /\
  gameover (after_update board_5x5 None None) = true /\
  winner (after_update board_5x5 None None) = None /\
  board (after_update board_5x5 None None) = board board_5x5 /\
  p1 (after_update board_5x5 None None) = (1, 2) /\
  p2 (after_update board_5x5 None None) = (3, 2).
Proof.
  split; [reflexivity|]. split; [reflexivity|]. split; [reflexivity|].
  apply (head_on_is_a_draw board_5x5 None None); reflexivity.
Defined.

(** ** Ticks on which the players do not meet head-on *)

Lemma setitem_lookup_cases (a a' : ndarray) (p : vec) (v : Z) (k : nat) (c : Z) :
  setitem a p v = Ok a' -> data a !! k = Some c ->
  data a' !! k = Some c \/ data a' !! k = Some v.
Proof.
  unfold setitem. destruct (offset a p) as [k0|]; [|done].
  destruct (data a !! k0) as [c0|] eqn:E0; [|done].
  intros [= <-] Hk. simpl.
  destruct (decide (k0 = k)) as [->|Hne].
  - right. apply list_lookup_insert_eq. by eapply lookup_lt_Some.
  - left. by rewrite list_lookup_insert_ne.
Qed.

Lemma setitem_cell_cases (a a' : ndarray) (p q : vec) (v c : Z) :
  setitem a p v = Ok a' -> cell a q = Some c ->
  cell a' q = Some c \/ cell a' q = Some v.
Proof.
  intros E. unfold cell. rewrite (setitem_shape _ _ _ _ E).
  intros Hc. by eapply setitem_lookup_cases.
Qed.

Lemma setitem_cell_same (a a' : ndarray) (p : vec) (v : Z) :
  setitem a p v = Ok a' -> in_grid a p -> cell a' p = Some v.
Proof.
  intros E Hg. pose proof E as E'. unfold setitem in E.
  rewrite offset_in_grid in E by done.
  destruct (data a !! _) as [c|] eqn:Ec; [|done].
  injection E as <-. unfold cell. simpl.
  apply list_lookup_insert_eq. by eapply lookup_lt_Some.
Qed.

Lemma in_grid_setitem (a a' : ndarray) (p q : vec) (v : Z) :
  setitem a p v = Ok a' -> in_grid a' q <-> in_grid a q.
Proof. intros E. unfold in_grid. by rewrite (setitem_shape _ _ _ _ E). Qed.

Lemma mark_trails_standing (b : t) :
  standing b ->
  exists a1 a2,
    setitem (board b) (p1 b) VISITED1 = Ok a1 /\
    setitem a1 (p2 b) VISITED2 = Ok a2 /\
    mark_trails b = (Ok tt, set_board a2 b).
Proof.
  intros [H1 H2]. rewrite mark_trails_eq.
  rewrite <- (setitem_is_ok _ _ VISITED1) in H1.
  destruct (setitem (board b) (p1 b) VISITED1) as [a1|] eqn:E1; [|done].
  rewrite <- (getitem_setitem_is_ok _ _ _ _ _ E1) in H2.
  rewrite <- (setitem_is_ok _ _ VISITED2) in H2.
  destruct (setitem a1 (p2 b) VISITED2) as [a2|] eqn:E2; [|done].
  by exists a1, a2.
Qed.

(** C7: on a board whose game is not over, with two directions that pass
    the check and candidates that differ, [update] returns, and with
    [p1_dead] and [p2_dead] the results of lines 90-99: the game is over
    exactly when a player died; nobody wins when both died, player 2 wins
    when only player 1 died, player 1 wins when only player 2 died; and the
    value returned is true exactly when the game is still on. *)
Theorem update_outcome (b : t) (m1 m2 : option vec) :
  gameover b = false ->
  standing b ->
  passes_validation (direction1 b m1) = true ->
  passes_validation (direction2 b m2) = true ->
  candidate1 b m1 <> candidate2 b m2 ->
  let b6 := (mark_trails b).2 in
  let b7 := (try_move1 (candidate1 b m1) b6).2 in
  let b' := after_update b m1 m2 in
  exists p1_dead p2_dead : bool,
    (try_move1 (candidate1 b m1) b6).1 = Ok p1_dead /\
    (try_move2 (candidate2 b m2) b7).1 = Ok p2_dead /\
    (update m1 m2 b).1 = Ok (negb (gameover b')) /\
    gameover b' = p1_dead || p2_dead /\
    (p1_dead = true -> p2_dead = true -> winner b' = None) /\
    (p1_dead = true -> p2_dead = false -> winner b' = Some 2) /\
    (p1_dead = false -> p2_dead = true -> winner b' = Some 1) /\
    (p1_dead = false -> p2_dead = false -> winner b' = winner b).
Proof.
  intros Hgo Hst H1 H2 Hne%vec_eqb_neq.
  destruct (mark_trails_standing b Hst) as (a1 & a2 & E1 & E2 & E6).
  unfold after_update. rewrite update_eq, H1, H2, Hne, E6. simpl.
  rewrite try_move1_eq.
  destruct (valid_move _ (candidate1 b m1)); simpl;
    rewrite try_move2_eq;
    destruct (valid_move _ (candidate2 b m2)); simpl;
    rewrite ?settle_eq; simpl; rewrite ?Hgo;
    eexists _, _; repeat split; try done.
Qed.

(** C10: when each player's candidate is the cell the other one stands on,
    the candidates differ, so the head-on rule does not apply; both cells
    have just become trails, both moves are refused, and the game ends with
    no winner and both players where they were. *)
Theorem swap_kills_both (b : t) (m1 m2 : option vec) :
  standing b ->
  p1 b <> p2 b ->
  passes_validation (direction1 b m1) = true ->
  passes_validation (direction2 b m2) = true ->
  candidate1 b m1 = p2 b ->
  candidate2 b m2 = p1 b ->
  vec_eqb (candidate1 b m1) (candidate2 b m2) = false /\
  valid_move (mark_trails b).2 (candidate1 b m1) = false /\
  valid_move (mark_trails b).2 (candidate2 b m2) = false /\
  update m1 m2 b =
    (Ok false, set_winner None (set_gameover true (mark_trails b).2)) /\
  gameover (after_update b m1 m2) = true /\
  winner (after_update b m1 m2) = None /\
  p1 (after_update b m1 m2) = p1 b /\
  p2 (after_update b m1 m2) = p2 b.
Proof.
  intros Hst Hne H1 H2 Hc1 Hc2.
  assert (vec_eqb (candidate1 b m1) (candidate2 b m2) = false) as Hho.
  { apply vec_eqb_neq. congruence. }
  destruct (mark_trails_standing b Hst) as (a1 & a2 & E1 & E2 & E6).
  assert (valid_move (set_board a2 b) (p2 b) = false) as Hv2.
  { apply not_true_is_false. intros [Hg Hc]%valid_move_iff. simpl in *.
    rewrite (in_grid_setitem _ _ _ _ _ E2) in Hg.
    rewrite (setitem_cell_same _ _ _ _ E2 Hg) in Hc. done. }
  assert (valid_move (set_board a2 b) (p1 b) = false) as Hv1.
  { apply not_true_is_false. intros [Hg Hc]%valid_move_iff. simpl in *.
    rewrite (in_grid_setitem _ _ _ _ _ E2) in Hg.
    rewrite (in_grid_setitem _ _ _ _ _ E1) in Hg.
    pose proof (setitem_cell_same _ _ _ _ E1 Hg) as Hc1'.
    destruct (setitem_cell_cases _ _ _ (p1 b) _ _ E2 Hc1') as [Hx|Hx];
      rewrite Hx in Hc; done. }
  unfold after_update.
  rewrite update_eq, H1, H2, Hho, E6, Hc1, Hc2. simpl.
  rewrite try_move1_eq, Hv2, try_move2_eq, Hv1, settle_eq. done.
Qed.

(** ** Counting cells *)

Lemma count_insert (l : list Z) (k : nat) (old new v : Z) :
  l !! k = Some old ->
  (length (filter (fun c => c = v) (<[k := new]> l))
   + (if decide (old = v) then 1 else 0)
   = length (filter (fun c => c = v) l)
     + (if decide (new = v) then 1 else 0))%nat.
Proof.
  revert k. induction l as [|x l IH]; intros [|k] Hk; try done.
  - injection Hk as ->. simpl. rewrite !filter_cons.
    destruct (decide (new = v)), (decide (old = v)); simpl; lia.
  - simpl in *. rewrite !filter_cons. specialize (IH k Hk).
    destruct (decide (x = v)); simpl; lia.
Qed.

Lemma count_replicate (n : nat) (c v : Z) :
  c <> v -> length (filter (fun c => c = v) (replicate n c)) = 0%nat.
Proof.
  intros Hne. induction n as [|n IH]; [done|].
  simpl. rewrite filter_cons. by destruct (decide (c = v)).
Qed.

Lemma count_put (a : ndarray) (p : vec) (old new v : Z) :
  cell a p = Some old ->
  (count_cells v (put a p new) + (if decide (old = v) then 1 else 0)
   = count_cells v a + (if decide (new = v) then 1 else 0))%nat.
Proof. intros Hc. unfold count_cells, put. simpl. by apply count_insert. Qed.

Lemma cell_put_same (a : ndarray) (p : vec) (v : Z) :
  is_Some (cell a p) -> cell (put a p v) p = Some v.
Proof.
  intros [c Hc]. unfold cell, put in *. simpl.
  apply list_lookup_insert_eq. by eapply lookup_lt_Some.
Qed.

(** Cells that hold different values are different cells. *)
Lemma cell_put_other (a : ndarray) (p q : vec) (v x y : Z) :
  cell a p = Some x -> cell a q = Some y -> x <> y ->
  cell (put a p v) q = Some y.
Proof.
  unfold cell, put. simpl. intros Hp Hq Hne.
  rewrite list_lookup_insert_ne; [done|]. intros E. rewrite E in Hp. congruence.
Qed.

Lemma put_wf (a : ndarray) (p : vec) (v : Z) : wf_array a -> wf_array (put a p v).
Proof.
  intros (Hn & Hm & Hlen). unfold wf_array, put. simpl.
  by rewrite length_insert.
Qed.

(** ** The constructor *)

Lemma zeros_ok (n m : Z) :
  0 <= n -> 0 <= m ->
  zeros n m = Ok (mk_ndarray (n, m) (replicate (Z.to_nat (n * m)) 0)).
Proof.
  intros Hn Hm. unfold zeros.
  destruct (Z.ltb_spec n 0), (Z.ltb_spec m 0); simpl; try lia. done.
Qed.

Lemma zeros_wf (n m : Z) :
  0 <= n -> 0 <= m ->
  wf_array (mk_ndarray (n, m) (replicate (Z.to_nat (n * m)) 0)).
Proof. intros. unfold wf_array. simpl. by rewrite length_replicate. Qed.

Lemma zeros_cell (n m : Z) (p : vec) :
  inside n m p ->
  cell (mk_ndarray (n, m) (replicate (Z.to_nat (n * m)) 0)) p = Some 0.
Proof.
  intros [H1 H2]. unfold cell. simpl.
  apply lookup_replicate_2. nia.
Qed.

Lemma zeros_shape (n m : Z) (a : ndarray) : zeros n m = Ok a -> shape a = (n, m).
Proof. unfold zeros. case_match; [done|]. by intros [= <-]. Qed.

Lemma setitem_nonneg_in_grid (a a' : ndarray) (p : vec) (v : Z) :
  0 <= p.1 -> 0 <= p.2 -> setitem a p v = Ok a' -> in_grid a p.
Proof.
  intros H1 H2. unfold setitem.
  destruct (offset a p) as [k|] eqn:Ek; [|done].
  intros _. by apply offset_nonneg in Ek as [Hg _].
Qed.

(** The board a well-placed construction produces. *)
Lemma init_inside (n m : Z) (p1 p2 v1 v2 : vec) :
  p1 <> p2 -> inside n m p1 -> inside n m p2 ->
  init n m p1 p2 v1 v2 =
  Ok (mk (put (put (mk_ndarray (n, m) (replicate (Z.to_nat (n * m)) 0))
                 p1 PLAYER1_POSITION) p2 PLAYER2_POSITION)
        false None p1 p2 v1 v2).
Proof.
  intros Hne Hp1 Hp2. unfold init.
  destruct (decide (p1 = p2)); [done|].
  pose proof Hp1 as [? ?]. pose proof Hp2 as [? ?].
  rewrite zeros_ok by lia.
  set (z := mk_ndarray (n, m) _).
  assert (wf_array z) as Hwf by (apply zeros_wf; lia).
  rewrite (setitem_put z p1) by (by auto using cell_wf).
  rewrite (setitem_put _ p2); [done|done|].
  apply cell_wf; [by apply put_wf | done].
Qed.

Lemma init_ok_inside (n m : Z) (p1 p2 v1 v2 : vec) (b : t) :
  0 <= p1.1 -> 0 <= p1.2 -> 0 <= p2.1 -> 0 <= p2.2 ->
  init n m p1 p2 v1 v2 = Ok b ->
  p1 <> p2 /\ inside n m p1 /\ inside n m p2.
Proof.
  intros ? ? ? ?. unfold init.
  destruct (decide (p1 = p2)); [done|].
  destruct (zeros n m) as [z|] eqn:Ez; [|done].
  destruct (setitem z p1 _) as [a1|] eqn:E1; [|done].
  destruct (setitem a1 p2 _) as [a2|] eqn:E2; [|done].
  intros _. split; [done|].
  apply setitem_nonneg_in_grid in E2 as Hg2; [|done..].
  rewrite (in_grid_setitem _ _ _ _ _ E1) in Hg2.
  apply setitem_nonneg_in_grid in E1 as Hg1; [|done..].
  unfold in_grid in *. rewrite (zeros_shape _ _ _ Ez) in *. done.
Qed.

Lemma cell_put_ne (a : ndarray) (p q : vec) (v : Z) :
  in_grid a p -> in_grid a q -> p <> q -> cell (put a p v) q = cell a q.
Proof.
  intros Hp Hq Hne. unfold cell, put. simpl.
  apply list_lookup_insert_ne. intros E. by apply ravel_inj in E.
Qed.

(** C4 fails as stated: the constructor stores the directions unchecked, so
    a 5x5 board with directions (1,1) and (7,7) is built. *)
Lemma init_accepts_any_direction :
  ~ (is_ok (init 5 5 (1, 2) (3, 2) (1, 1) (7, 7)) = false <->
     refused_by_spec 5 5 (1, 2) (3, 2) (1, 1) (7, 7)).
Proof.
  intros [_ H]. assert (is_ok (init 5 5 (1, 2) (3, 2) (1, 1) (7, 7)) = false);
    [|done].
  apply H. unfold refused_by_spec. right. right. right. left. reflexivity.
Qed.

(** C4, amended: for positions with non-negative coordinates the
    constructor fails exactly when the two positions are equal or one of them
    lies outside [0,n) x [0,m); the directions play no part.  When it
    succeeds, the grid has shape (n, m), the two starting cells hold
    [PLAYER1_POSITION] and [PLAYER2_POSITION], every other cell is [EMPTY],
    the game is on, and the positions and directions are stored as given. *)
Theorem init_checks_positions (n m : Z) (pos1 pos2 dir1 dir2 : vec) :
  0 <= pos1.1 -> 0 <= pos1.2 -> 0 <= pos2.1 -> 0 <= pos2.2 ->
  (is_ok (init n m pos1 pos2 dir1 dir2) = false <->
   pos1 = pos2 \/ ~ inside n m pos1 \/ ~ inside n m pos2) /\
  (forall b : t,
     init n m pos1 pos2 dir1 dir2 = Ok b ->
     shape (board b) = (n, m) /\
     wf_array (board b) /\
     cell (board b) pos1 = Some PLAYER1_POSITION /\
     cell (board b) pos2 = Some PLAYER2_POSITION /\
     (forall q, inside n m q -> q <> pos1 -> q <> pos2 ->
                cell (board b) q = Some EMPTY) /\
     gameover b = false /\ winner b = None /\
     p1 b = pos1 /\ p2 b = pos2 /\ v1 b = dir1 /\ v2 b = dir2).
Proof.
  intros Hx1 Hy1 Hx2 Hy2. split.
  - split.
    + intros Hfail.
      destruct (decide (pos1 = pos2)); [by left|].
      destruct (decide (inside n m pos1)); [|by right; left].
      destruct (decide (inside n m pos2)); [|by right; right].
      rewrite init_inside in Hfail by done. done.
    + intros Hbad.
      destruct (init n m pos1 pos2 dir1 dir2) as [b|] eqn:E; [|done].
      apply init_ok_inside in E as (? & ? & ?); [|done..]. tauto.
  - intros b E.
    pose proof E as (Hne & Hp1 & Hp2)%init_ok_inside; [|done..].
    rewrite init_inside in E by done. injection E as <-.
    cbn [board gameover winner p1 p2 v1 v2].
    pose proof Hp1 as [? ?].
    set (z := mk_ndarray (n, m) _).
    assert (wf_array z) as Hwf by (apply zeros_wf; lia).
    assert (forall q, inside n m q -> cell z q = Some 0) as Hz
        by (intros; by apply zeros_cell).
    split; [done|]. split; [by do 2 apply put_wf|].
    split.
    { rewrite cell_put_ne by done. apply cell_put_same. rewrite Hz; eauto. }
    split.
    { apply cell_put_same. rewrite cell_put_ne by done. rewrite Hz; eauto. }
    split; [|done].
    intros q Hq Hq1 Hq2. rewrite !cell_put_ne by done. by apply Hz.
Qed.

(** A 3x3 board on which both directions are off the list, built all the
    same, with every cell but the two starting ones empty. *)
Lemma init_checks_positions_3x3 :
  is_ok (init 3 3 (0, 0) (2, 1) (1, 1) (7, 7)) = true /\
  (forall b : t,
     init 3 3 (0, 0) (2, 1) (1, 1) (7, 7) = Ok b ->
     cell (board b) (0, 0) = Some PLAYER1_POSITION /\
     cell (board b) (2, 1) = Some PLAYER2_POSITION /\
     cell (board b) (1, 1) = Some EMPTY).
Proof.
  split; [reflexivity|]. intros b E.
  destruct (init_checks_positions 3 3 (0, 0) (2, 1) (1, 1) (7, 7))
    as [_ H]; [simpl; lia..|].
  destruct (H b E) as (_ & _ & H1 & H2 & H3 & _).
  split; [done|]. split; [done|].
  apply H3; [unfold inside; simpl; lia | done | done].
Defined.

(** ** Evaluation order of the two moves *)

(** Player 1's accepted destination does not change the answer to player
    2's check at another coordinate. *)
Lemma valid_move_after_put (s : t) (c1 c2 : vec) (v : Z) :
  valid_move s c1 = true -> c1 <> c2 ->
  valid_move (set_p1 c1 (set_board (put (board s) c1 v) s)) c2
  = valid_move s c2.
Proof.
  intros [Hg1 Hc1]%valid_move_iff Hne.
  apply eq_iff_eq_true. rewrite !valid_move_iff.
  cbn [board set_p1 set_board].
  change (in_grid (put (board s) c1 v) c2) with (in_grid (board s) c2).
  split; intros [Hg2 Hc2]; (split; [done|]).
  - by rewrite cell_put_ne in Hc2.
  - by rewrite cell_put_ne.
Qed.

Lemma moves_simultaneous_eq (c1 c2 : vec) (s : t) :
  c1 <> c2 ->
  moves_simultaneous c1 c2 s =
  let s1 := if valid_move s c1
            then set_p1 c1 (set_board (put (board s) c1 PLAYER1_POSITION) s)
            else s in
  let s2 := if valid_move s c2
            then set_p2 c2 (set_board (put (board s1) c2 PLAYER2_POSITION) s1)
            else s1 in
  (Ok (negb (valid_move s c1), negb (valid_move s c2)), s2).
Proof.
  intros Hne. unfold moves_simultaneous, bind at 1 2, read.
  cbn beta iota.
  destruct (valid_move s c1) eqn:E1.
  - pose proof E1 as [Hg1 Hc1]%valid_move_iff.
    unfold bind at 1 2. rewrite board_set_eq, setitem_put by eauto.
    cbn beta iota. unfold write at 1. cbn beta iota.
    destruct (valid_move s c2) eqn:E2.
    + pose proof E2 as [Hg2 Hc2]%valid_move_iff.
      unfold bind at 1 2. rewrite board_set_eq.
      cbn [board set_p1 set_board].
      rewrite setitem_put; [done|done|].
      rewrite cell_put_ne by done. eauto.
    + done.
  - unfold bind at 1. cbn beta iota. unfold ret at 1. cbn beta iota.
    destruct (valid_move s c2) eqn:E2.
    + pose proof E2 as [Hg2 Hc2]%valid_move_iff.
      unfold bind at 1 2. rewrite board_set_eq, setitem_put by eauto. done.
    + done.
Qed.

Lemma moves_sequential_eq (c1 c2 : vec) (s : t) :
  c1 <> c2 ->
  moves_sequential c1 c2 s =
  let s1 := if valid_move s c1
            then set_p1 c1 (set_board (put (board s) c1 PLAYER1_POSITION) s)
            else s in
  let s2 := if valid_move s c2
            then set_p2 c2 (set_board (put (board s1) c2 PLAYER2_POSITION) s1)
            else s1 in
  (Ok (negb (valid_move s c1), negb (valid_move s c2)), s2).
Proof.
  intros Hne. unfold moves_sequential, bind at 1. rewrite try_move1_eq.
  destruct (valid_move s c1) eqn:E1.
  - unfold bind at 1. rewrite try_move2_eq, valid_move_after_put by done.
    by destruct (valid_move s c2).
  - unfold bind at 1. rewrite try_move2_eq.
    by destruct (valid_move s c2).
Qed.

Lemma update_simultaneous_eq (m1 m2 : option vec) (b : t) :
  update_simultaneous m1 m2 b =
  if negb (passes_validation (direction1 b m1)) then (Raise ValueError, b)
  else if negb (passes_validation (direction2 b m2)) then (Raise ValueError, b)
  else if vec_eqb (candidate1 b m1) (candidate2 b m2)
  then (Ok false, set_winner None (set_gameover true b))
  else
    match mark_trails b with
    | (Raise e, b') => (Raise e, b')
    | (Ok _, b6) =>
        match moves_simultaneous (candidate1 b m1) (candidate2 b m2) b6 with
        | (Raise e, b') => (Raise e, b')
        | (Ok dead, b8) => settle dead.1 dead.2 b8
        end
    end.
Proof.
  unfold update_simultaneous, passes_validation, candidate1, candidate2,
    direction1, direction2.
  destruct m1 as [d1|], m2 as [d2|]; unfold or_previous; unfold_monad;
    repeat (case_match; simpl; try done).
Qed.

(** C8: [update] computes what the specification's simultaneous reading of
    step 7 computes, result and board alike.  When the candidates differ, the
    code's run of lines 90-99 on the trail-marked board is the simultaneous
    one, and each player dies exactly when [valid_move] refuses its candidate
    on that trail-marked board. *)
Theorem update_refines_simultaneous (b : t) (m1 m2 : option vec) :
  update m1 m2 b = update_simultaneous m1 m2 b /\
  (candidate1 b m1 <> candidate2 b m2 ->
   let b6 := (mark_trails b).2 in
   moves_sequential (candidate1 b m1) (candidate2 b m2) b6
   = moves_simultaneous (candidate1 b m1) (candidate2 b m2) b6 /\
   (try_move1 (candidate1 b m1) b6).1
   = Ok (negb (valid_move b6 (candidate1 b m1))) /\
   (try_move2 (candidate2 b m2) (try_move1 (candidate1 b m1) b6).2).1
   = Ok (negb (valid_move b6 (candidate2 b m2)))).
Proof.
  split.
  - rewrite update_eq, update_simultaneous_eq.
    destruct (negb _); [done|]. destruct (negb _); [done|].
    destruct (vec_eqb _ _) eqn:Hne; [done|]. apply vec_eqb_neq in Hne.
    destruct (mark_trails b) as [[[]|e] b6]; [|done].
    pose proof (moves_sequential_eq _ _ b6 Hne) as Hseq.
    rewrite (moves_simultaneous_eq _ _ b6 Hne). cbn zeta.
    unfold moves_sequential, bind in Hseq.
    destruct (try_move1 _ b6) as [[d1|e1] b7].
    + destruct (try_move2 _ b7) as [[d2|e2] b8]; [|done].
      unfold ret in Hseq. cbn zeta in Hseq. by injection Hseq as -> -> ->.
    + done.
  - intros Hne b6. split.
    + by rewrite moves_sequential_eq, moves_simultaneous_eq.
    + rewrite !try_move1_eq. split.
      * by destruct (valid_move b6 (candidate1 b m1)).
      * destruct (valid_move b6 (candidate1 b m1)) eqn:E1; cbn [snd].
        -- rewrite try_move2_eq, valid_move_after_put by done.
           by destruct (valid_move b6 (candidate2 b m2)).
        -- rewrite try_move2_eq.
           by destruct (valid_move b6 (candidate2 b m2)).
Qed.

(** ** After the game is over *)

Lemma mark_trails_gameover (b : t) : gameover (mark_trails b).2 = gameover b.
Proof. rewrite mark_trails_eq. by repeat case_match. Qed.

Lemma try_move1_gameover (pos : vec) (b : t) :
  gameover (try_move1 pos b).2 = gameover b.
Proof. rewrite try_move1_eq. by destruct (valid_move b pos). Qed.

Lemma try_move2_gameover (pos : vec) (b : t) :
  gameover (try_move2 pos b).2 = gameover b.
Proof. rewrite try_move2_eq. by destruct (valid_move b pos). Qed.

Lemma settle_gameover (d1 d2 : bool) (b : t) :
  gameover b = true ->
  gameover (settle d1 d2 b).2 = true /\ (settle d1 d2 b).1 = Ok false.
Proof. intros H. rewrite settle_eq. destruct d1, d2; simpl; by rewrite ?H. Qed.

Lemma update_gameover (m1 m2 : option vec) (b : t) :
  gameover b = true ->
  gameover (after_update b m1 m2) = true /\
  (forall r, (update m1 m2 b).1 = Ok r -> r = false).
Proof.
  intros Hgo. unfold after_update. rewrite update_eq.
  destruct (negb _); [done|]. destruct (negb _); [done|].
  destruct (vec_eqb _ _); [split; [done|by intros r [= <-]]|].
  pose proof (mark_trails_gameover b) as A.
  destruct (mark_trails b) as [[[]|e] b6]; simpl in *; [|split; [congruence|done]].
  pose proof (try_move1_gameover (candidate1 b m1) b6) as B.
  destruct (try_move1 _ b6) as [[d1|e] b7]; simpl in *;
    [|split; [congruence|done]].
  pose proof (try_move2_gameover (candidate2 b m2) b7) as C.
  destruct (try_move2 _ b7) as [[d2|e] b8]; simpl in *;
    [|split; [congruence|done]].
  destruct (settle_gameover d1 d2 b8) as [D1 D2]; [congruence|].
  split; [done|]. rewrite D2. by intros r [= <-].
Qed.

(** C2 fails as stated: [update] has no test of [gameover].  On the drawn
    3x3 board, which one tick produces from a fresh board, a further call
    returns normally, writes trails and player 2's new cell, moves player 2
    and names player 2 the winner of a game that was a draw. *)
Lemma update_after_gameover_changes_board :
  (exists b0 : t,
     init 3 3 (0, 0) (2, 0) (1, 0) (-1, 0) = Ok b0 /\
     after_update b0 None None = board_3x3_drawn) /\
  gameover board_3x3_drawn = true /\
  (update (Some (-1, 0)) (Some (0, 1)) board_3x3_drawn).1 = Ok false /\
  winner (after_update board_3x3_drawn (Some (-1, 0)) (Some (0, 1)))
    <> winner board_3x3_drawn /\
  board (after_update board_3x3_drawn (Some (-1, 0)) (Some (0, 1)))
    <> board board_3x3_drawn /\
  p2 (after_update board_3x3_drawn (Some (-1, 0)) (Some (0, 1)))
    <> p2 board_3x3_drawn.
Proof.
  split; [eexists; split; reflexivity|].
  vm_compute. repeat split; congruence.
Qed.

(** C2, amended: once [gameover] is true, [update] keeps it true and, when
    it returns, returns false; it is the iterator of [TronGame] that stops
    calling [update], raising [StopIteration] and leaving the board as it
    is. *)
Theorem gameover_is_kept (b : t) (m1 m2 : option vec) :
  gameover b = true ->
  gameover (after_update b m1 m2) = true /\
  (forall r, (update m1 m2 b).1 = Ok r -> r = false) /\
  (forall g : TronGame.t,
     TronGame.board g = b -> TronGame.next g = (Raise StopIteration, g)).
Proof.
  intros Hgo. destruct (update_gameover m1 m2 b Hgo) as [H1 H2].
  split; [done|]. split; [done|].
  intros g <-. unfold TronGame.next. by rewrite Hgo.
Qed.

(** ** Cells are only ever filled *)

Lemma grows_refl (a : ndarray) : grows a a.
Proof. split; [done|]. split; [done|]. eauto. Qed.

Lemma grows_trans (a a' a'' : ndarray) : grows a a' -> grows a' a'' -> grows a a''.
Proof.
  intros (S1 & L1 & H1) (S2 & L2 & H2).
  split; [congruence|]. split; [congruence|].
  intros k c Hk Hc. destruct (H1 k c Hk Hc) as (c' & Hk' & Hc'). eauto.
Qed.

Lemma grows_setitem (a a' : ndarray) (p : vec) (v : Z) :
  v <> EMPTY -> setitem a p v = Ok a' -> grows a a'.
Proof.
  intros Hv E. split; [by eapply setitem_shape|].
  split; [by eapply setitem_length|].
  intros k c Hk Hc.
  destruct (setitem_lookup_cases _ _ _ _ _ _ E Hk); eauto.
Qed.

Lemma grows_put (a : ndarray) (p : vec) (v : Z) :
  v <> EMPTY -> grows a (put a p v).
Proof.
  intros Hv. split; [done|]. split; [apply length_insert|].
  intros k c Hk Hc. unfold put. simpl.
  destruct (decide (Z.to_nat (p.1 * (shape a).2 + p.2) = k)) as [->|Hne].
  - exists v. split; [|done].
    apply list_lookup_insert_eq. by eapply lookup_lt_Some.
  - exists c. by rewrite list_lookup_insert_ne.
Qed.

Lemma grows_wf (a a' : ndarray) : grows a a' -> wf_array a -> wf_array a'.
Proof.
  intros (S1 & L1 & _) (Hn & Hm & Hlen). unfold wf_array.
  rewrite S1, L1. done.
Qed.

Lemma mark_trails_grows (b : t) : grows (board b) (board (mark_trails b).2).
Proof.
  rewrite mark_trails_eq.
  destruct (setitem (board b) _ _) as [a1|] eqn:E1; [|apply grows_refl].
  apply grows_setitem in E1; [|done].
  destruct (setitem a1 _ _) as [a2|] eqn:E2; [|done].
  apply grows_setitem in E2; [|done]. by eapply grows_trans.
Qed.

Lemma try_move1_grows (pos : vec) (b : t) :
  grows (board b) (board (try_move1 pos b).2).
Proof.
  rewrite try_move1_eq. destruct (valid_move b pos); [|apply grows_refl].
  by apply grows_put.
Qed.

Lemma try_move2_grows (pos : vec) (b : t) :
  grows (board b) (board (try_move2 pos b).2).
Proof.
  rewrite try_move2_eq. destruct (valid_move b pos); [|apply grows_refl].
  by apply grows_put.
Qed.

Lemma settle_board (d1 d2 : bool) (b : t) : board (settle d1 d2 b).2 = board b.
Proof. rewrite settle_eq. by destruct d1, d2. Qed.

Lemma update_grows (m1 m2 : option vec) (b : t) :
  grows (board b) (board (after_update b m1 m2)).
Proof.
  unfold after_update. rewrite update_eq.
  destruct (negb _); [apply grows_refl|].
  destruct (negb _); [apply grows_refl|].
  destruct (vec_eqb _ _); [apply grows_refl|].
  pose proof (mark_trails_grows b) as A.
  destruct (mark_trails b) as [[[]|e] b6]; simpl in A; [|done].
  pose proof (try_move1_grows (candidate1 b m1) b6) as B.
  destruct (try_move1 _ b6) as [[d1|e] b7]; simpl in B;
    [|by eapply grows_trans].
  pose proof (try_move2_grows (candidate2 b m2) b7) as C.
  destruct (try_move2 _ b7) as [[d2|e] b8]; simpl in C;
    [|eapply grows_trans; [|done]; by eapply grows_trans].
  rewrite settle_board.
  eapply grows_trans; [|done]. by eapply grows_trans.
Qed.

Lemma reachable_grows (b b' : t) : reachable b b' -> grows (board b) (board b').
Proof.
  induction 1 as [|b' m1 m2 _ IH]; [apply grows_refl|].
  eapply grows_trans; [done|]. apply update_grows.
Qed.

Lemma reachable_trans (b0 b b' : t) :
  reachable b0 b -> reachable b b' -> reachable b0 b'.
Proof. intros H0. induction 1; [done|]. by constructor. Qed.

(** ** One cell per player while the game is on *)

Lemma count_put_other (a : ndarray) (p : vec) (old new v : Z) :
  cell a p = Some old -> old <> v -> new <> v ->
  count_cells v (put a p new) = count_cells v a.
Proof.
  intros Hc Ho Hn. pose proof (count_put a p old new v Hc) as H.
  do 2 case_decide; try done. lia.
Qed.

Lemma count_put_remove (a : ndarray) (p : vec) (new v : Z) :
  cell a p = Some v -> new <> v ->
  S (count_cells v (put a p new)) = count_cells v a.
Proof.
  intros Hc Hn. pose proof (count_put a p v new v Hc) as H.
  do 2 case_decide; try done. lia.
Qed.

Lemma count_put_add (a : ndarray) (p : vec) (old v : Z) :
  cell a p = Some old -> old <> v ->
  count_cells v (put a p v) = S (count_cells v a).
Proof.
  intros Hc Ho. pose proof (count_put a p old v v Hc) as H.
  do 2 case_decide; try done. lia.
Qed.

Lemma init_inv (n m : Z) (pos1 pos2 dir1 dir2 : vec) (b0 : t) :
  inside n m pos1 -> inside n m pos2 ->
  init n m pos1 pos2 dir1 dir2 = Ok b0 -> board_inv b0.
Proof.
  intros Hp1 Hp2 E.
  assert (pos1 <> pos2) as Hne.
  { intros ->. unfold init in E. by destruct (decide (pos2 = pos2)). }
  rewrite init_inside in E by done. injection E as <-.
  pose proof Hp1 as [? ?].
  set (z := mk_ndarray (n, m) (replicate (Z.to_nat (n * m)) 0)).
  assert (wf_array z) as Hwf by (apply zeros_wf; lia).
  assert (cell z pos1 = Some 0) as Hz1 by (by apply zeros_cell).
  assert (cell z pos2 = Some 0) as Hz2 by (by apply zeros_cell).
  assert (cell (put z pos1 PLAYER1_POSITION) pos2 = Some 0) as Hz2'
      by (by rewrite cell_put_ne).
  split; [by do 2 apply put_wf|]. intros _.
  cbn [board p1 p2].
  split; [done|]. split; [done|].
  split. { rewrite cell_put_ne by done. apply cell_put_same. eauto. }
  split. { apply cell_put_same. eauto. }
  split.
  - rewrite (count_put_other _ _ 0) by done.
    rewrite (count_put_add _ _ 0) by done.
    unfold count_cells, z. simpl. by rewrite count_replicate.
  - rewrite (count_put_add _ _ 0) by done.
    rewrite (count_put_other _ _ 0) by done.
    unfold count_cells, z. simpl. by rewrite count_replicate.
Qed.

Lemma update_inv (m1 m2 : option vec) (b : t) :
  board_inv b -> board_inv (after_update b m1 m2).
Proof.
  intros [Hwf Hinv].
  split; [eapply grows_wf; [apply update_grows | done]|].
  intros Hgo'.
  destruct (gameover b) eqn:Hgo.
  { destruct (update_gameover m1 m2 b Hgo) as [H _]. congruence. }
  destruct Hinv as (Hg1 & Hg2 & Hc1 & Hc2 & Hn1 & Hn2); [done|].
  revert Hgo'. unfold after_update. rewrite update_eq.
  destruct (negb _); [by intros _|].
  destruct (negb _); [by intros _|].
  destruct (vec_eqb _ _); [done|].
  set (a1 := put (board b) (p1 b) VISITED1).
  set (a2 := put a1 (p2 b) VISITED2).
  assert (cell a1 (p2 b) = Some PLAYER2_POSITION) as Hc2'.
  { by apply (cell_put_other _ _ _ _ PLAYER1_POSITION). }
  rewrite mark_trails_eq.
  rewrite (setitem_put (board b) (p1 b)) by eauto. fold a1.
  rewrite (setitem_put a1 (p2 b)) by eauto. fold a2.
  rewrite try_move1_eq.
  destruct (valid_move _ (candidate1 b m1)) eqn:V1; cycle 1.
  { cbn beta iota. rewrite try_move2_eq.
    destruct (valid_move _ (candidate2 b m2)); cbn beta iota;
      by rewrite settle_eq. }
  cbn beta iota. rewrite try_move2_eq.
  destruct (valid_move _ (candidate2 b m2)) eqn:V2; cycle 1.
  { cbn beta iota. by rewrite settle_eq. }
  cbn beta iota. rewrite settle_eq. intros _.
  apply valid_move_iff in V1 as [G1 C1].
  apply valid_move_iff in V2 as [G2 C2].
  cbn [board set_board set_p1 set_p2 p1 p2 snd] in *.
  set (c1 := candidate1 b m1) in *. set (c2 := candidate2 b m2) in *.
  set (a3 := put a2 c1 PLAYER1_POSITION) in *.
  assert (cell a3 c1 = Some PLAYER1_POSITION) as C1'.
  { apply cell_put_same. eauto. }
  assert (count_cells PLAYER1_POSITION a1 = 0%nat) as N11.
  { pose proof (count_put_remove (board b) (p1 b) VISITED1 _ Hc1) as H.
    fold a1 in H. rewrite Hn1 in H. specialize (H ltac:(done)). lia. }
  assert (count_cells PLAYER2_POSITION a1 = 1%nat) as N12.
  { unfold a1. by rewrite (count_put_other _ _ PLAYER1_POSITION). }
  assert (count_cells PLAYER1_POSITION a2 = 0%nat) as N21.
  { unfold a2. by rewrite (count_put_other _ _ PLAYER2_POSITION). }
  assert (count_cells PLAYER2_POSITION a2 = 0%nat) as N22.
  { pose proof (count_put_remove a1 (p2 b) VISITED2 _ Hc2') as H.
    fold a2 in H. rewrite N12 in H. specialize (H ltac:(done)). lia. }
  split; [exact G1|]. split; [exact G2|].
  split. { by apply (cell_put_other _ _ _ _ EMPTY). }
  split. { apply cell_put_same. eauto. }
  split.
  - rewrite (count_put_other _ _ EMPTY) by done.
    unfold a3. rewrite (count_put_add _ _ EMPTY) by done. by rewrite N21.
  - rewrite (count_put_add _ _ EMPTY) by done.
    unfold a3. rewrite (count_put_other _ _ EMPTY) by done. by rewrite N22.
Qed.

Lemma reachable_inv (b0 b : t) : board_inv b0 -> reachable b0 b -> board_inv b.
Proof. intros H0. induction 1; [done|]. by apply update_inv. Qed.

(** C9: on every board reached by calls of [update] from a construction
    with two positions of the grid, a cell that is not empty stays not empty
    on every board reached later, and while the game is on exactly one cell
    holds [PLAYER1_POSITION] and exactly one holds [PLAYER2_POSITION]. *)
Theorem reachable_boards_keep_marks
    (n m : Z) (pos1 pos2 dir1 dir2 : vec) (b0 b : t) :
  inside n m pos1 -> inside n m pos2 ->
  init n m pos1 pos2 dir1 dir2 = Ok b0 ->
  reachable b0 b ->
  (forall (b' : t) (q : vec) (c : Z),
     reachable b b' ->
     in_grid (board b) q -> cell (board b) q = Some c -> c <> EMPTY ->
     in_grid (board b') q /\
     exists c', cell (board b') q = Some c' /\ c' <> EMPTY) /\
  (gameover b = false ->
   count_cells PLAYER1_POSITION (board b) = 1%nat /\
   count_cells PLAYER2_POSITION (board b) = 1%nat).
Proof.
  intros Hp1 Hp2 E Hr. split.
  - intros b' q c Hr' Hg Hc Hne.
    destruct (reachable_grows b b' Hr') as (Hs & _ & Hk).
    unfold in_grid, cell. rewrite Hs. split; [done|]. by eapply Hk.
  - intros Hgo.
    destruct (reachable_inv b0 b (init_inv _ _ _ _ _ _ _ Hp1 Hp2 E) Hr)
      as [_ H].
    by destruct (H Hgo) as (_ & _ & _ & _ & ? & ?).
Qed.

(** ** The theorems on concrete boards *)

(** On the 5x5 board the centre is free; a negative coordinate and the cell
    player 1 stands on are refused. *)
Lemma valid_move_correct_5x5 :
  valid_move_call board_5x5 (2, 2) = Ok true /\
  valid_move_call board_5x5 (-1, 0) = Ok false /\
  valid_move_call board_5x5 (1, 2) = Ok false.
Proof.
  destruct (valid_move_correct board_5x5 (2, 2)) as (_ & [_ H1] & _);
    [simpl; lia..|].
  destruct (valid_move_correct board_5x5 (-1, 0)) as (_ & _ & H2 & _);
    [simpl; lia..|].
  destruct (valid_move_correct board_5x5 (1, 2)) as (_ & _ & _ & H3);
    [simpl; lia..|].
  split; [|split].
  - apply H1. split; [unfold in_grid, inside; simpl; lia | reflexivity].
  - apply H2. unfold in_grid, inside. simpl. lia.
  - apply (H3 PLAYER1_POSITION);
      [unfold in_grid, inside; simpl; lia | reflexivity | done].
Defined.

(** On the fresh 3x3 board player 1 steps off the grid and player 2 steps
    down: the game is over and player 2 wins. *)
Lemma update_outcome_3x3 :
  gameover board_3x3 = false /\
  (update (Some (-1, 0)) (Some (0, 1)) board_3x3).1 = Ok false /\
  gameover (after_update board_3x3 (Some (-1, 0)) (Some (0, 1))) = true /\
  winner (after_update board_3x3 (Some (-1, 0)) (Some (0, 1))) = Some 2.
Proof.
  destruct (update_outcome board_3x3 (Some (-1, 0)) (Some (0, 1)))
    as (d1 & d2 & H1 & H2 & H3 & H4 & _ & H6 & _).
  - reflexivity.
  - split; reflexivity.
  - reflexivity.
  - reflexivity.
  - vm_compute. congruence.
  - vm_compute in H1. vm_compute in H2.
    injection H1 as <-. injection H2 as <-.
    split; [reflexivity|]. split; [reflexivity|].
    split; [reflexivity|]. by apply H6.
Defined.

(** On the 3x3 board with the players face to face, each stepping onto the
    other's cell, both die where they stand. *)
Lemma swap_kills_both_3x3 :
  candidate1 board_3x3_facing None = p2 board_3x3_facing /\
  candidate2 board_3x3_facing None = p1 board_3x3_facing /\
  (update None None board_3x3_facing).1 = Ok false /\
  gameover (after_update board_3x3_facing None None) = true /\
  winner (after_update board_3x3_facing None None) = None /\
  p1 (after_update board_3x3_facing None None) = (0, 0) /\
  p2 (after_update board_3x3_facing None None) = (1, 0).
Proof.
  destruct (swap_kills_both board_3x3_facing None None)
    as (_ & _ & _ & H4 & H5 & H6 & H7 & H8).
  - split; reflexivity.
  - vm_compute. congruence.
  - reflexivity.
  - reflexivity.
  - reflexivity.
  - reflexivity.
  - split; [reflexivity|]. split; [reflexivity|].
    split; [by rewrite H4|]. done.
Defined.

(** On the 5x5 board with both players stepping down, the two readings of
    step 7 give the same board and nobody dies. *)
Lemma update_refines_simultaneous_5x5 :
  candidate1 board_5x5 (Some (0, 1)) <> candidate2 board_5x5 (Some (0, 1)) /\
  update (Some (0, 1)) (Some (0, 1)) board_5x5
  = update_simultaneous (Some (0, 1)) (Some (0, 1)) board_5x5 /\
  moves_sequential (1, 3) (3, 3) (mark_trails board_5x5).2
  = moves_simultaneous (1, 3) (3, 3) (mark_trails board_5x5).2.
Proof.
  assert (candidate1 board_5x5 (Some (0, 1))
          <> candidate2 board_5x5 (Some (0, 1))) as Hne
      by (vm_compute; congruence).
  destruct (update_refines_simultaneous board_5x5 (Some (0, 1)) (Some (0, 1)))
    as [H1 H2].
  destruct (H2 Hne) as [H3 _].
  split; [exact Hne|]. split; [exact H1 | exact H3].
Defined.

(** On the drawn 3x3 board a further call leaves [gameover] true, and the
    iterator stops. *)
Lemma gameover_is_kept_3x3 :
  gameover board_3x3_drawn = true /\
  gameover (after_update board_3x3_drawn (Some (-1, 0)) (Some (0, 1))) = true /\
  forall bot1 bot2 : TronGame.bot,
    TronGame.next (TronGame.mk board_3x3_drawn bot1 bot2)
    = (Raise StopIteration, TronGame.mk board_3x3_drawn bot1 bot2).
Proof.
  destruct (gameover_is_kept board_3x3_drawn (Some (-1, 0)) (Some (0, 1)))
    as (H1 & _ & H3); [reflexivity|].
  split; [reflexivity|]. split; [exact H1|].
  intros bot1 bot2. by apply H3.
Defined.

(** One tick from the fresh 5x5 board, both players stepping down: the two
    marks are still there, one cell each. *)
Lemma reachable_boards_keep_marks_5x5 :
  init 5 5 (1, 2) (3, 2) (1, 0) (-1, 0) = Ok board_5x5 /\
  gameover (after_update board_5x5 (Some (0, 1)) (Some (0, 1))) = false /\
  count_cells PLAYER1_POSITION
    (board (after_update board_5x5 (Some (0, 1)) (Some (0, 1)))) = 1%nat /\
  count_cells PLAYER2_POSITION
    (board (after_update board_5x5 (Some (0, 1)) (Some (0, 1)))) = 1%nat.
Proof.
  destruct (reachable_boards_keep_marks 5 5 (1, 2) (3, 2) (1, 0) (-1, 0)
              board_5x5 (after_update board_5x5 (Some (0, 1)) (Some (0, 1))))
    as [_ H].
  - unfold inside. simpl. lia.
  - unfold inside. simpl. lia.
  - reflexivity.
  - apply reach_update, reach_start.
  - split; [reflexivity|]. split; [reflexivity|]. by apply H.
Defined.

(** ** Boards on which [update] cannot fail half-way *)

(** On a safe board the whole of [update] can be written out: the trail
    marking succeeds, and both checks can be read on the trail-marked
    board. *)
Lemma update_safe_eq (m1 m2 : option vec) (b : t) :
  board_safe b ->
  update m1 m2 b =
  if negb (passes_validation (direction1 b m1)) then (Raise ValueError, b)
  else if negb (passes_validation (direction2 b m2)) then (Raise ValueError, b)
  else if vec_eqb (candidate1 b m1) (candidate2 b m2)
  then (Ok false, set_winner None (set_gameover true b))
  else
    let b6 := set_board (put (put (board b) (p1 b) VISITED1) (p2 b) VISITED2) b in
    let b7 := if valid_move b6 (candidate1 b m1)
              then set_p1 (candidate1 b m1)
                     (set_board (put (board b6) (candidate1 b m1)
                                   PLAYER1_POSITION) b6)
              else b6 in
    let b8 := if valid_move b6 (candidate2 b m2)
              then set_p2 (candidate2 b m2)
                     (set_board (put (board b7) (candidate2 b m2)
                                   PLAYER2_POSITION) b7)
              else b7 in
    settle (negb (valid_move b6 (candidate1 b m1)))
           (negb (valid_move b6 (candidate2 b m2))) b8.
Proof.
  intros (Hwf & Hg1 & Hg2). rewrite update_eq.
  destruct (negb _); [done|]. destruct (negb _); [done|].
  destruct (vec_eqb _ _) eqn:Hne; [done|]. apply vec_eqb_neq in Hne.
  rewrite mark_trails_eq.
  rewrite (setitem_put (board b) (p1 b)) by auto using cell_wf.
  rewrite (setitem_put _ (p2 b)); [|done|apply cell_wf; [by apply put_wf|done]].
  set (b6 := set_board _ b).
  pose proof (moves_sequential_eq _ _ b6 Hne) as Hseq.
  unfold moves_sequential, bind in Hseq.
  destruct (try_move1 _ b6) as [[d1|e1] b7]; [|done].
  destruct (try_move2 _ b7) as [[d2|e2] b8]; [|done].
  unfold ret in Hseq. cbn zeta in Hseq. by injection Hseq as -> -> ->.
Qed.

Lemma update_safe (m1 m2 : option vec) (b : t) :
  board_safe b -> board_safe (after_update b m1 m2).
Proof.
  intros Hs. pose proof Hs as (Hwf & Hg1 & Hg2).
  unfold after_update. rewrite update_safe_eq by done.
  destruct (negb _); [done|]. destruct (negb _); [done|].
  destruct (vec_eqb _ _); [done|].
  cbn zeta. rewrite settle_eq.
  destruct (valid_move _ (candidate1 b m1)) eqn:V1;
    destruct (valid_move _ (candidate2 b m2)) eqn:V2;
    try (apply valid_move_iff in V1 as [G1 _]);
    try (apply valid_move_iff in V2 as [G2 _]);
    cbn [negb snd];
    (split; [by repeat apply put_wf|]); split; done.
Qed.

Lemma init_safe (n m : Z) (pos1 pos2 dir1 dir2 : vec) (b0 : t) :
  inside n m pos1 -> inside n m pos2 ->
  init n m pos1 pos2 dir1 dir2 = Ok b0 ->
  board_safe b0 /\ shape (board b0) = (n, m).
Proof.
  intros Hp1 Hp2 E.
  assert (pos1 <> pos2) as Hne.
  { intros ->. unfold init in E. by destruct (decide (pos2 = pos2)). }
  rewrite init_inside in E by done. injection E as <-.
  pose proof Hp1 as [? ?].
  split; [|done]. split; [|done].
  do 2 apply put_wf. apply zeros_wf; lia.
Qed.

Lemma reachable_safe (b0 b : t) : board_safe b0 -> reachable b0 b -> board_safe b.
Proof. intros H0. induction 1; [done|]. by apply update_safe. Qed.

Lemma reachable_shape (b0 b : t) :
  reachable b0 b -> shape (board b) = shape (board b0).
Proof. intros Hr. by destruct (reachable_grows _ _ Hr) as [? _]. Qed.

(** X1: a call of [update] that raises [ValueError] has changed nothing:
    both directions are tested before anything is written. *)
Theorem update_ValueError_keeps_board (b : t) (m1 m2 : option vec) :
  (update m1 m2 b).1 = Raise ValueError -> after_update b m1 m2 = b.
Proof.
  unfold after_update. rewrite update_eq.
  destruct (negb _); [done|]. destruct (negb _); [done|].
  destruct (vec_eqb _ _); [done|].
  destruct (mark_trails b) as [[[]|e] b6] eqn:E6.
  - rewrite try_move1_eq. destruct (valid_move b6 _); cbn beta iota;
      rewrite try_move2_eq; destruct (valid_move _ (candidate2 b m2));
      cbn beta iota; rewrite settle_eq; by repeat case_match.
  - apply mark_trails_raises in E6 as ->. done.
Qed.

Lemma update_ValueError_keeps_board_5x5 :
  (update (Some (2, 2)) None board_5x5).1 = Raise ValueError /\
  after_update board_5x5 (Some (2, 2)) None = board_5x5.
Proof.
  split; [reflexivity|].
  apply update_ValueError_keeps_board. reflexivity.
Defined.

(** X2: on every board reached from a construction with both positions in
    the grid, the array keeps its shape and size, both players stay on
    coordinates of the grid, and [update] cannot raise [IndexError]: it
    returns whenever both directions pass the membership test, and otherwise
    raises [ValueError]. *)
Theorem update_is_safe_on_reachable
    (n m : Z) (pos1 pos2 dir1 dir2 : vec) (b0 b : t) :
  inside n m pos1 -> inside n m pos2 ->
  init n m pos1 pos2 dir1 dir2 = Ok b0 ->
  reachable b0 b ->
  shape (board b) = (n, m) /\
  wf_array (board b) /\
  inside n m (p1 b) /\ inside n m (p2 b) /\
  forall m1 m2 : option vec,
    (update m1 m2 b).1 <> Raise IndexError /\
    (is_ok (update m1 m2 b).1 =
     passes_validation (direction1 b m1) && passes_validation (direction2 b m2)).
Proof.
  intros Hp1 Hp2 E Hr.
  destruct (init_safe _ _ _ _ _ _ _ Hp1 Hp2 E) as [Hs0 Hsh0].
  pose proof (reachable_safe _ _ Hs0 Hr) as Hs.
  pose proof (reachable_shape _ _ Hr) as Hsh. rewrite Hsh0 in Hsh.
  pose proof Hs as (Hwf & Hg1 & Hg2).
  unfold in_grid in Hg1, Hg2. rewrite Hsh in Hg1, Hg2. simpl in Hg1, Hg2.
  split; [done|]. split; [done|]. split; [done|]. split; [done|].
  intros m1 m2. rewrite update_safe_eq by done.
  destruct (passes_validation (direction1 b m1)); [|done].
  destruct (passes_validation (direction2 b m2)); [|done].
  cbn [negb andb].
  destruct (vec_eqb _ _); [done|].
  cbn zeta. rewrite settle_eq. by repeat case_match.
Qed.

Lemma update_is_safe_on_reachable_5x5 :
  inside 5 5 (p1 (after_update board_5x5 (Some (0, 1)) (Some (0, 1)))) /\
  (update (Some (1, 0)) (Some (5, 5))
     (after_update board_5x5 (Some (0, 1)) (Some (0, 1)))).1
  <> Raise IndexError.
Proof.
  destruct (update_is_safe_on_reachable 5 5 (1, 2) (3, 2) (1, 0) (-1, 0)
              board_5x5 (after_update board_5x5 (Some (0, 1)) (Some (0, 1))))
    as (_ & _ & H1 & _ & H2).
  - unfold inside. simpl. lia.
  - unfold inside. simpl. lia.
  - reflexivity.
  - apply reach_update, reach_start.
  - split; [exact H1|]. apply H2.
Defined.

(** X3: on a safe board a call of [update], whatever it is given and however
    it ends, leaves alone every cell other than the two the players stand on
    and the two they aim at. *)
Theorem update_touches_four_cells (b : t) (m1 m2 : option vec) (q : vec) :
  board_safe b ->
  in_grid (board b) q ->
  q <> p1 b -> q <> p2 b ->
  q <> candidate1 b m1 -> q <> candidate2 b m2 ->
  cell (board (after_update b m1 m2)) q = cell (board b) q.
Proof.
  intros (Hwf & Hg1 & Hg2) Hq Hq1 Hq2 Hq3 Hq4.
  unfold after_update. rewrite update_safe_eq by done.
  destruct (negb _); [done|]. destruct (negb _); [done|].
  destruct (vec_eqb _ _); [done|].
  cbn zeta. rewrite settle_board.
  assert (cell (put (put (board b) (p1 b) VISITED1) (p2 b) VISITED2) q
          = cell (board b) q) as H6.
  { rewrite !cell_put_ne; done. }
  destruct (valid_move _ (candidate1 b m1)) eqn:V1;
    destruct (valid_move _ (candidate2 b m2)) eqn:V2;
    try (apply valid_move_iff in V1 as [G1 _]);
    try (apply valid_move_iff in V2 as [G2 _]);
    cbn [board set_board set_p1 set_p2] in *;
    rewrite ?cell_put_ne; done.
Qed.

Lemma update_touches_four_cells_5x5 :
  cell (board (after_update board_5x5 (Some (0, 1)) (Some (0, 1)))) (0, 0)
  = cell (board board_5x5) (0, 0).
Proof.
  apply update_touches_four_cells.
  - split; [|split].
    + unfold wf_array. simpl. split; [lia|]. split; [lia|]. reflexivity.
    + unfold in_grid, inside. simpl. lia.
    + unfold in_grid, inside. simpl. lia.
  - unfold in_grid, inside. simpl. lia.
  - vm_compute. congruence.
  - vm_compute. congruence.
  - vm_compute. congruence.
  - vm_compute. congruence.
Defined.

(** ** The winner *)

Lemma update_winner_inv (m1 m2 : option vec) (b : t) :
  board_safe b ->
  (gameover b = false -> winner b = None) ->
  (winner b = None \/ winner b = Some 1 \/ winner b = Some 2) ->
  (gameover (after_update b m1 m2) = false ->
   winner (after_update b m1 m2) = None) /\
  (winner (after_update b m1 m2) = None \/
   winner (after_update b m1 m2) = Some 1 \/
   winner (after_update b m1 m2) = Some 2).
Proof.
  intros Hs H1 H2. unfold after_update. rewrite update_safe_eq by done.
  destruct (negb _); [done|]. destruct (negb _); [done|].
  destruct (vec_eqb _ _); [by split; [|left]|].
  cbn zeta. rewrite settle_eq.
  destruct (valid_move _ (candidate1 b m1)), (valid_move _ (candidate2 b m2));
    cbn [negb snd gameover winner set_winner set_gameover set_p1 set_p2
           set_board]; (split; [try done; auto | auto]).
Qed.

Lemma update_returns_not_gameover (m1 m2 : option vec) (b : t) (r : bool) :
  board_safe b ->
  (update m1 m2 b).1 = Ok r -> r = negb (gameover (after_update b m1 m2)).
Proof.
  intros Hs. unfold after_update. rewrite update_safe_eq by done.
  destruct (negb _); [done|]. destruct (negb _); [done|].
  destruct (vec_eqb _ _); [by intros [= <-]|].
  cbn zeta. rewrite settle_eq.
  destruct (valid_move _ (candidate1 b m1)), (valid_move _ (candidate2 b m2));
    cbn [negb fst snd gameover winner set_winner set_gameover set_p1 set_p2
           set_board]; by intros [= <-].
Qed.

(** X4: on every board reached from a construction with both positions in
    the grid, there is no winner while the game is on, the winner is
    [None], 1 or 2, and a call of [update] that returns, returns true
    exactly when the game is still on afterwards. *)
Theorem winner_only_when_over
    (n m : Z) (pos1 pos2 dir1 dir2 : vec) (b0 b : t) :
  inside n m pos1 -> inside n m pos2 ->
  init n m pos1 pos2 dir1 dir2 = Ok b0 ->
  reachable b0 b ->
  (gameover b = false -> winner b = None) /\
  (winner b = None \/ winner b = Some 1 \/ winner b = Some 2) /\
  (forall (m1 m2 : option vec) (r : bool),
     (update m1 m2 b).1 = Ok r ->
     r = negb (gameover (after_update b m1 m2))).
Proof.
  intros Hp1 Hp2 E Hr.
  destruct (init_safe _ _ _ _ _ _ _ Hp1 Hp2 E) as [Hs0 _].
  assert (winner b0 = None) as Hw0.
  { unfold init in E. repeat case_match; try done. by injection E as <-. }
  assert ((gameover b = false -> winner b = None) /\
          (winner b = None \/ winner b = Some 1 \/ winner b = Some 2)) as [H1 H2].
  { induction Hr as [|b m1 m2 Hr IH]; [by split; [|left]|].
    destruct IH as [IH1 IH2].
    apply update_winner_inv; [by eapply reachable_safe|done..]. }
  split; [done|]. split; [done|].
  intros m1 m2 r. apply update_returns_not_gameover. by eapply reachable_safe.
Qed.

Lemma winner_only_when_over_3x3 :
  winner (after_update board_3x3 (Some (-1, 0)) (Some (0, 1))) = Some 2 /\
  (gameover (after_update board_3x3 (Some (0, 1)) (Some (0, 1))) = false ->
   winner (after_update board_3x3 (Some (0, 1)) (Some (0, 1))) = None).
Proof.
  destruct (winner_only_when_over 3 3 (0, 0) (2, 0) (1, 0) (-1, 0)
              board_3x3 (after_update board_3x3 (Some (0, 1)) (Some (0, 1))))
    as (H1 & _ & _).
  - unfold inside. simpl. lia.
  - unfold inside. simpl. lia.
  - reflexivity.
  - apply reach_update, reach_start.
  - split; [reflexivity | exact H1].
Defined.

(** ** Ticks that leave the game on *)

Lemma count_replicate_same (n : nat) (c : Z) :
  length (filter (fun x => x = c) (replicate n c)) = n.
Proof.
  induction n as [|n IH]; [done|].
  simpl. rewrite filter_cons. destruct (decide (c = c)); [|done].
  simpl. by rewrite IH.
Qed.

(** What a tick that returns true has done, on a board that satisfies the
    invariant. *)
Lemma continuing_tick (m1 m2 : option vec) (b : t) :
  board_inv b ->
  (update m1 m2 b).1 = Ok true ->
  let b' := after_update b m1 m2 in
  gameover b = false /\ gameover b' = false /\
  p1 b' = candidate1 b m1 /\ p2 b' = candidate2 b m2 /\
  candidate1 b m1 <> candidate2 b m2 /\
  cell (board b) (candidate1 b m1) = Some EMPTY /\
  cell (board b) (candidate2 b m2) = Some EMPTY /\
  cell (board b') (p1 b) = Some VISITED1 /\
  cell (board b') (p2 b) = Some VISITED2 /\
  cell (board b') (candidate1 b m1) = Some PLAYER1_POSITION /\
  cell (board b') (candidate2 b m2) = Some PLAYER2_POSITION /\
  (count_cells EMPTY (board b') + 2 = count_cells EMPTY (board b))%nat.
Proof.
  intros [Hwf Hinv] Hret b'.
  destruct (gameover b) eqn:Hgo.
  { destruct (update_gameover m1 m2 b Hgo) as [_ H]. by specialize (H _ Hret). }
  destruct Hinv as (Hg1 & Hg2 & Hc1 & Hc2 & Hn1 & Hn2); [done|].
  assert (board_safe b) as Hs by done.
  revert Hret. subst b'. unfold after_update.
  rewrite update_safe_eq by done.
  destruct (negb _); [done|]. destruct (negb _); [done|].
  destruct (vec_eqb _ _) eqn:Hne; [done|]. apply vec_eqb_neq in Hne.
  cbn zeta. rewrite settle_eq.
  set (c1 := candidate1 b m1) in *. set (c2 := candidate2 b m2) in *.
  set (a1 := put (board b) (p1 b) VISITED1).
  set (a2 := put a1 (p2 b) VISITED2).
  assert (cell a1 (p1 b) = Some VISITED1) as A11.
  { apply cell_put_same. eauto. }
  assert (cell a1 (p2 b) = Some PLAYER2_POSITION) as A12.
  { by apply (cell_put_other _ _ _ _ PLAYER1_POSITION). }
  assert (cell a2 (p2 b) = Some VISITED2) as A22.
  { apply cell_put_same. eauto. }
  assert (cell a2 (p1 b) = Some VISITED1) as A21.
  { by apply (cell_put_other _ _ _ _ PLAYER2_POSITION). }
  destruct (valid_move _ c1) eqn:V1; cycle 1.
  { destruct (valid_move _ c2); done. }
  destruct (valid_move _ c2) eqn:V2; [|done].
  cbn [negb fst snd gameover p1 p2 board set_board set_p1 set_p2].
  intros _.
  apply valid_move_iff in V1 as [G1 C1]. apply valid_move_iff in V2 as [G2 C2].
  cbn [board set_board] in G1, C1, G2, C2. fold a1 a2 in G1, C1, G2, C2.
  assert (c1 <> p1 b) as N1 by (intros E; by rewrite E, A21 in C1).
  assert (c1 <> p2 b) as N2 by (intros E; by rewrite E, A22 in C1).
  assert (c2 <> p1 b) as N3 by (intros E; by rewrite E, A21 in C2).
  assert (c2 <> p2 b) as N4 by (intros E; by rewrite E, A22 in C2).
  fold a1 a2.
  set (a3 := put a2 c1 PLAYER1_POSITION).
  assert (cell a3 c1 = Some PLAYER1_POSITION) as A31.
  { apply cell_put_same. eauto. }
  assert (cell a3 c2 = Some EMPTY) as A32.
  { unfold a3. by rewrite cell_put_ne. }
  split; [done|]. split; [done|]. split; [done|]. split; [done|].
  split; [done|].
  split. { unfold a2, a1 in C1. by rewrite !cell_put_ne in C1. }
  split. { unfold a2, a1 in C2. by rewrite !cell_put_ne in C2. }
  split. { unfold a3. by rewrite !cell_put_ne. }
  split. { unfold a3. by rewrite !cell_put_ne. }
  split. { by rewrite cell_put_ne. }
  split. { apply cell_put_same. eauto. }
  pose proof (count_put_remove a3 c2 PLAYER2_POSITION EMPTY A32 ltac:(done)) as K4.
  pose proof (count_put_remove a2 c1 PLAYER1_POSITION EMPTY C1 ltac:(done)) as K3.
  fold a3 in K3.
  assert (count_cells EMPTY a2 = count_cells EMPTY a1) as K2.
  { unfold a2. by rewrite (count_put_other _ _ PLAYER2_POSITION). }
  assert (count_cells EMPTY a1 = count_cells EMPTY (board b)) as K1.
  { unfold a1. by rewrite (count_put_other _ _ PLAYER1_POSITION). }
  lia.
Qed.

Lemma board_inv_live_safe (b : t) : board_inv b -> gameover b = false -> board_safe b.
Proof. intros [Hwf H] Hgo. destruct (H Hgo) as (? & ? & _). done. Qed.

(** X5: on a board reached from a construction with both positions in the
    grid, a call of [update] that returns true has moved both players onto
    their candidates, which were two different empty cells, has left a trail
    on the two cells they stood on, and has used up exactly two empty
    cells. *)
Theorem tick_that_continues
    (n m : Z) (pos1 pos2 dir1 dir2 : vec) (b0 b : t) (m1 m2 : option vec) :
  inside n m pos1 -> inside n m pos2 ->
  init n m pos1 pos2 dir1 dir2 = Ok b0 ->
  reachable b0 b ->
  (update m1 m2 b).1 = Ok true ->
  let b' := after_update b m1 m2 in
  gameover b = false /\ gameover b' = false /\
  p1 b' = candidate1 b m1 /\ p2 b' = candidate2 b m2 /\
  candidate1 b m1 <> candidate2 b m2 /\
  cell (board b) (candidate1 b m1) = Some EMPTY /\
  cell (board b) (candidate2 b m2) = Some EMPTY /\
  cell (board b') (p1 b) = Some VISITED1 /\
  cell (board b') (p2 b) = Some VISITED2 /\
  cell (board b') (candidate1 b m1) = Some PLAYER1_POSITION /\
  cell (board b') (candidate2 b m2) = Some PLAYER2_POSITION /\
  (count_cells EMPTY (board b') + 2 = count_cells EMPTY (board b))%nat.
Proof.
  intros Hp1 Hp2 E Hr Hret.
  apply continuing_tick; [|done].
  apply (reachable_inv b0); [|done].
  exact (init_inv _ _ _ _ _ _ _ Hp1 Hp2 E).
Qed.

Lemma tick_that_continues_5x5 :
  let b' := after_update board_5x5 (Some (0, 1)) (Some (0, 1)) in
  p1 b' = (1, 3) /\
  cell (board b') (1, 2) = Some VISITED1 /\
  (count_cells EMPTY (board b') + 2 = count_cells EMPTY (board board_5x5))%nat.
Proof.
  intros b'. subst b'.
  destruct (tick_that_continues 5 5 (1, 2) (3, 2) (1, 0) (-1, 0)
              board_5x5 board_5x5 (Some (0, 1)) (Some (0, 1)))
    as (_ & _ & H1 & _ & _ & _ & _ & H2 & _ & _ & _ & H3).
  - unfold inside. simpl. lia.
  - unfold inside. simpl. lia.
  - reflexivity.
  - apply reach_start.
  - reflexivity.
  - split; [exact H1|]. split; [exact H2 | exact H3].
Defined.

(** ** How long a game can last *)

Lemma init_empty_cells (n m : Z) (pos1 pos2 dir1 dir2 : vec) (b0 : t) :
  inside n m pos1 -> inside n m pos2 ->
  init n m pos1 pos2 dir1 dir2 = Ok b0 ->
  (count_cells EMPTY (board b0) + 2 = Z.to_nat (n * m))%nat.
Proof.
  intros Hp1 Hp2 E.
  assert (pos1 <> pos2) as Hne.
  { intros ->. unfold init in E. by destruct (decide (pos2 = pos2)). }
  rewrite init_inside in E by done. injection E as <-.
  pose proof Hp1 as [? ?].
  set (z := mk_ndarray (n, m) (replicate (Z.to_nat (n * m)) 0)).
  assert (cell z pos1 = Some EMPTY) as Hz1 by (by apply zeros_cell).
  assert (cell (put z pos1 PLAYER1_POSITION) pos2 = Some EMPTY) as Hz2.
  { rewrite cell_put_ne by done. by apply zeros_cell. }
  cbn [board].
  pose proof (count_put_remove _ _ PLAYER2_POSITION EMPTY Hz2 ltac:(done)) as K2.
  pose proof (count_put_remove _ _ PLAYER1_POSITION EMPTY Hz1 ltac:(done)) as K1.
  assert (count_cells EMPTY z = Z.to_nat (n * m)) as K0.
  { unfold count_cells, z. simpl. apply count_replicate_same. }
  lia.
Qed.

Lemma ticks_inv (moves : list (option vec * option vec)) (b b' : t) :
  board_inv b ->
  ticks moves b = (Ok true, b') ->
  board_inv b' /\ reachable b b' /\
  (count_cells EMPTY (board b') + 2 * length moves
   = count_cells EMPTY (board b))%nat.
Proof.
  revert b. induction moves as [|[m1 m2] rest IH]; intros b Hinv.
  - simpl. intros [= <-]. split; [done|]. split; [constructor|lia].
  - simpl. destruct (update m1 m2 b) as [[[]|e] b1] eqn:E1; try done.
    intros Ht.
    assert ((update m1 m2 b).1 = Ok true) as Hret by (by rewrite E1).
    pose proof (continuing_tick m1 m2 b Hinv Hret) as H. cbn zeta in H.
    destruct H as (_ & _ & _ & _ & _ & _ & _ & _ & _ & _ & _ & Hcount).
    assert (after_update b m1 m2 = b1) as Hb1 by (unfold after_update; by rewrite E1).
    rewrite Hb1 in Hcount.
    destruct (IH b1) as (Hinv' & Hr' & Hc'); [|done|].
    { rewrite <- Hb1. by apply update_inv. }
    split; [done|]. split; [|lia].
    eapply reachable_trans; [|done]. rewrite <- Hb1. apply reach_update, reach_start.
Qed.

(** X6: a game cannot go on for ever.  From a construction with both
    positions in an n x m grid, when every one of a list of calls of [update]
    returned true, the empty cells left number n*m - 2 minus twice the length
    of the list; so at most (n*m - 2) / 2 calls in a row can return true,
    whatever moves are supplied. *)
Theorem game_length_bounded
    (n m : Z) (pos1 pos2 dir1 dir2 : vec) (b0 b : t)
    (moves : list (option vec * option vec)) :
  inside n m pos1 -> inside n m pos2 ->
  init n m pos1 pos2 dir1 dir2 = Ok b0 ->
  ticks moves b0 = (Ok true, b) ->
  Z.of_nat (count_cells EMPTY (board b))
  = n * m - 2 - 2 * Z.of_nat (length moves) /\
  2 * Z.of_nat (length moves) + 2 <= n * m.
Proof.
  intros Hp1 Hp2 E Ht.
  pose proof (init_empty_cells _ _ _ _ _ _ _ Hp1 Hp2 E) as K0.
  destruct (ticks_inv moves b0 b) as (_ & _ & K);
    [exact (init_inv _ _ _ _ _ _ _ Hp1 Hp2 E)|done|].
  pose proof Hp1 as [? ?].
  assert (0 <= n * m) by nia.
  lia.
Qed.

Lemma game_length_bounded_5x5 :
  let down := (Some (0, 1), Some (0, 1)) in
  let b2 := after_update (after_update board_5x5 (Some (0, 1)) (Some (0, 1)))
              (Some (0, 1)) (Some (0, 1)) in
  ticks [down; down] board_5x5 = (Ok true, b2) /\
  Z.of_nat (count_cells EMPTY (board b2)) = 19.
Proof.
  intros down b2.
  assert (ticks [down; down] board_5x5 = (Ok true, b2)) as Ht
      by (vm_compute; reflexivity).
  split; [exact Ht|].
  destruct (game_length_bounded 5 5 (1, 2) (3, 2) (1, 0) (-1, 0) board_5x5
              b2 [down; down]) as [H _].
  - unfold inside. simpl. lia.
  - unfold inside. simpl. lia.
  - reflexivity.
  - exact Ht.
  - exact H.
Defined.

(** ** Carrying the direction forward *)

Lemma mark_trails_positions (b : t) :
  p1 (mark_trails b).2 = p1 b /\ p2 (mark_trails b).2 = p2 b.
Proof. rewrite mark_trails_eq. by repeat case_match. Qed.

(** On any board at all, a call that returns true has put both players on
    their candidates. *)
Lemma update_true_positions (m1 m2 : option vec) (b : t) :
  (update m1 m2 b).1 = Ok true ->
  p1 (after_update b m1 m2) = candidate1 b m1 /\
  p2 (after_update b m1 m2) = candidate2 b m2.
Proof.
  unfold after_update. rewrite update_eq.
  destruct (negb _); [done|]. destruct (negb _); [done|].
  destruct (vec_eqb _ _); [done|].
  pose proof (mark_trails_positions b) as [P1 P2].
  destruct (mark_trails b) as [[[]|e] b6]; [|done].
  cbn [snd] in P1, P2.
  rewrite try_move1_eq.
  destruct (valid_move b6 _); cbn beta iota; rewrite try_move2_eq;
    destruct (valid_move _ (candidate2 b m2)); cbn beta iota;
    rewrite settle_eq; try done.
Qed.

(** X7: as long as [update(None, None)] keeps returning true, each player
    advances by the direction it was constructed with, once per call: after
    k calls it stands k steps further along that direction. *)
Theorem none_moves_in_a_straight_line (k : nat) (b b' : t) :
  ticks (replicate k (None, None)) b = (Ok true, b') ->
  p1 b' = ((p1 b).1 + Z.of_nat k * (v1 b).1, (p1 b).2 + Z.of_nat k * (v1 b).2) /\
  p2 b' = ((p2 b).1 + Z.of_nat k * (v2 b).1, (p2 b).2 + Z.of_nat k * (v2 b).2) /\
  v1 b' = v1 b /\ v2 b' = v2 b.
Proof.
  revert b. induction k as [|k IH]; intros b.
  - simpl. intros [= <-]. destruct (p1 b), (p2 b). simpl.
    repeat split; f_equal; lia.
  - cbn [replicate ticks].
    destruct (update None None b) as [[[]|e] b1] eqn:E1; try done.
    intros Ht.
    assert ((update None None b).1 = Ok true) as Hret by (by rewrite E1).
    destruct (update_true_positions None None b Hret) as [P1 P2].
    destruct (update_v None None b) as [V1 V2].
    unfold after_update in P1, P2, V1, V2. rewrite E1 in P1, P2, V1, V2.
    cbn [snd] in P1, P2, V1, V2.
    destruct (IH b1 Ht) as (Q1 & Q2 & Q3 & Q4).
    rewrite Q1, Q2, Q3, Q4, P1, P2, V1, V2.
    unfold candidate1, candidate2, direction1, direction2, vec_add. simpl.
    repeat split; f_equal; lia.
Qed.

Lemma none_moves_in_a_straight_line_5x5 :
  init 5 5 (0, 0) (0, 4) (1, 0) (1, 0) = Ok board_5x5_parallel /\
  (ticks (replicate 3 (None, None)) board_5x5_parallel).1 = Ok true /\
  p1 (ticks (replicate 3 (None, None)) board_5x5_parallel).2 = (3, 0) /\
  p2 (ticks (replicate 3 (None, None)) board_5x5_parallel).2 = (3, 4).
Proof.
  split; [vm_compute; reflexivity|]. split; [vm_compute; reflexivity|].
  destruct (none_moves_in_a_straight_line 3 board_5x5_parallel
              (ticks (replicate 3 (None, None)) board_5x5_parallel).2)
    as (H1 & H2 & _); [vm_compute; reflexivity|].
  split; [exact H1 | exact H2].
Defined.

(** ** The constructor on any arguments *)

Lemma axis_index_Some (i len k : Z) :
  axis_index i len = Some k <-> - len <= i < len /\ k = i `mod` len.
Proof.
  unfold axis_index.
  destruct (Z.leb_spec 0 i), (Z.ltb_spec i len); cbn [andb].
  - rewrite Z.mod_small by lia. split; [intros [= <-]; lia | intros [_ ->]; done].
  - destruct (Z.leb_spec (- len) i), (Z.ltb_spec i 0); cbn [andb];
      try lia; (split; [done | intros; exfalso; lia]).
  - destruct (Z.leb_spec (- len) i), (Z.ltb_spec i 0); cbn [andb]; try lia.
    + replace (i `mod` len) with (i + len).
      * split; [intros [= <-]; lia | intros [_ ->]; done].
      * apply Z.mod_unique with (-1); lia.
    + split; [done | intros; exfalso; lia].
  - destruct (Z.leb_spec (- len) i), (Z.ltb_spec i 0); cbn [andb];
      try lia; (split; [done | intros; exfalso; lia]).
Qed.

Lemma wrap_position_in_grid (a : ndarray) (p : vec) :
  index_accepted (shape a).1 (shape a).2 p ->
  in_grid a (wrap_position (shape a).1 (shape a).2 p).
Proof.
  intros [H1 H2]. unfold in_grid, inside, wrap_position. simpl.
  split; apply Z.mod_pos_bound; lia.
Qed.

(** An assignment through an accepted index is an assignment at the
    coordinate the index names. *)
Lemma setitem_wrap (a : ndarray) (p : vec) (v : Z) :
  wf_array a ->
  setitem a p v =
  if decide (index_accepted (shape a).1 (shape a).2 p)
  then Ok (put a (wrap_position (shape a).1 (shape a).2 p) v)
  else Raise IndexError.
Proof.
  intros Hwf. unfold setitem, offset.
  destruct (axis_index p.1 (shape a).1) as [i|] eqn:Ei.
  - destruct (axis_index p.2 (shape a).2) as [j|] eqn:Ej.
    + apply axis_index_Some in Ei as [Hi ->].
      apply axis_index_Some in Ej as [Hj ->].
      assert (index_accepted (shape a).1 (shape a).2 p) as Hacc by done.
      destruct (decide _); [|done].
      pose proof (wrap_position_in_grid a p Hacc) as Hg.
      destruct (cell_wf a _ Hwf Hg) as [c Hc].
      unfold cell, wrap_position in Hc. simpl in Hc. by rewrite Hc.
    + destruct (decide _) as [[_ H2]|]; [|done].
      assert (axis_index p.2 (shape a).2 = Some (p.2 `mod` (shape a).2)) as E
          by (by apply axis_index_Some).
      congruence.
  - destruct (decide _) as [[H1 _]|]; [|done].
    assert (axis_index p.1 (shape a).1 = Some (p.1 `mod` (shape a).1)) as E
        by (by apply axis_index_Some).
    congruence.
Qed.

Lemma init_eq (n m : Z) (pos1 pos2 dir1 dir2 : vec) :
  init n m pos1 pos2 dir1 dir2 =
  if decide (pos1 = pos2) then Raise AssertionError
  else if (n <? 0) || (m <? 0) then Raise ValueError
  else if decide (index_accepted n m pos1 /\ index_accepted n m pos2)
  then Ok (mk (put (put (mk_ndarray (n, m) (replicate (Z.to_nat (n * m)) 0))
                      (wrap_position n m pos1) PLAYER1_POSITION)
                 (wrap_position n m pos2) PLAYER2_POSITION)
              false None pos1 pos2 dir1 dir2)
  else Raise IndexError.
Proof.
  unfold init. destruct (decide (pos1 = pos2)); [done|].
  unfold zeros.
  destruct (Z.ltb_spec n 0), (Z.ltb_spec m 0); cbn [orb]; try done.
  set (z := mk_ndarray (n, m) _).
  assert (wf_array z) as Hwf by (by apply zeros_wf).
  rewrite (setitem_wrap z pos1) by done. cbn [shape z fst snd].
  destruct (decide (index_accepted n m pos1)) as [A1|A1]; cycle 1.
  { destruct (decide _) as [[? ?]|]; done. }
  rewrite setitem_wrap by (by apply put_wf). cbn [shape put z fst snd].
  destruct (decide (index_accepted n m pos2)) as [A2|A2]; cycle 1.
  { destruct (decide _) as [[? ?]|]; done. }
  destruct (decide _) as [|N]; [done|]. by destruct N.
Qed.

(** X8: what the constructor does with positions that fit a C long and
    dimensions below 2^30.  It raises [AssertionError] exactly when the two
    positions are equal; otherwise [ValueError] exactly when a dimension is
    negative; otherwise [IndexError] exactly when an index is outside what
    numpy accepts, [-n, n) x [-m, m); and otherwise it succeeds, storing
    positions and directions as given with the game on. *)
Theorem init_outcome (n m : Z) (pos1 pos2 dir1 dir2 : vec) :
  position_fits pos1 -> position_fits pos2 ->
  n < 2 ^ 30 -> m < 2 ^ 30 ->
  (init n m pos1 pos2 dir1 dir2 = Raise AssertionError <-> pos1 = pos2) /\
  (init n m pos1 pos2 dir1 dir2 = Raise ValueError <->
   pos1 <> pos2 /\ (n < 0 \/ m < 0)) /\
  (init n m pos1 pos2 dir1 dir2 = Raise IndexError <->
   pos1 <> pos2 /\ 0 <= n /\ 0 <= m /\
   ~ (index_accepted n m pos1 /\ index_accepted n m pos2)) /\
  (is_ok (init n m pos1 pos2 dir1 dir2) = true <->
   pos1 <> pos2 /\ index_accepted n m pos1 /\ index_accepted n m pos2) /\
  (forall b, init n m pos1 pos2 dir1 dir2 = Ok b ->
     shape (board b) = (n, m) /\ gameover b = false /\ winner b = None /\
     p1 b = pos1 /\ p2 b = pos2 /\ v1 b = dir1 /\ v2 b = dir2).
Proof.
  intros _ _ _ _. rewrite init_eq.
  destruct (decide (pos1 = pos2)) as [Heq|Hne].
  { split; [done|]. split; [split; [done | tauto]|].
    split; [split; [done | tauto]|]. split; [split; [done | tauto]|]. done. }
  destruct (Z.ltb_spec n 0) as [Hn|Hn]; cbn [orb].
  { split; [done|]. split; [split; [tauto | done]|].
    split; [split; [done | intros; exfalso; lia]|].
    split; [|done].
    split; [done|]. intros (_ & [? _] & _). exfalso. lia. }
  destruct (Z.ltb_spec m 0) as [Hm|Hm]; cbn [orb].
  { split; [done|]. split; [split; [tauto | done]|].
    split; [split; [done | intros; exfalso; lia]|].
    split; [|done].
    split; [done|]. intros (_ & [_ ?] & _). exfalso. lia. }
  destruct (decide _) as [[A1 A2]|N].
  - split; [done|].
    split; [split; [done | intros; exfalso; lia]|].
    split; [split; [done | tauto]|].
    split; [done|]. by intros b [= <-].
  - split; [done|].
    split; [split; [done | intros; exfalso; lia]|].
    split; [done|]. split; [|done].
    split; [done | tauto].
Qed.

(** A 3x3 board built with player 1 given as (-1,-1): the far corner. *)
Lemma init_outcome_3x3 :
  is_ok (init 3 3 (-1, -1) (0, 0) (1, 0) (-1, 0)) = true /\
  init 3 3 (0, 3) (0, 0) (1, 0) (-1, 0) = Raise IndexError /\
  init (-1) 3 (0, 1) (0, 0) (1, 0) (-1, 0) = Raise ValueError /\
  init (-1) 3 (0, 0) (0, 0) (1, 0) (-1, 0) = Raise AssertionError.
Proof.
  assert (forall x y : Z, - 4 <= x <= 4 -> - 4 <= y <= 4 -> position_fits (x, y))
    as Hfit.
  { intros x y Hx Hy. unfold position_fits, fits_long. simpl. lia. }
  destruct (init_outcome 3 3 (-1, -1) (0, 0) (1, 0) (-1, 0))
    as (_ & _ & _ & [_ H1] & _); [apply Hfit; lia | apply Hfit; lia | lia..|].
  destruct (init_outcome 3 3 (0, 3) (0, 0) (1, 0) (-1, 0))
    as (_ & _ & [_ H2] & _); [apply Hfit; lia | apply Hfit; lia | lia..|].
  destruct (init_outcome (-1) 3 (0, 1) (0, 0) (1, 0) (-1, 0))
    as (_ & [_ H3] & _); [apply Hfit; lia | apply Hfit; lia | lia..|].
  destruct (init_outcome (-1) 3 (0, 0) (0, 0) (1, 0) (-1, 0))
    as ([_ H4] & _); [apply Hfit; lia | apply Hfit; lia | lia..|].
  split; [|split; [|split]].
  - apply H1. unfold index_accepted. simpl. split; [congruence | lia].
  - apply H2. unfold index_accepted. simpl.
    split; [congruence|]. split; [lia|]. split; [lia|]. lia.
  - apply H3. split; [congruence | lia].
  - by apply H4.
Defined.

(** X9: the marks of a constructed board, negative indices included.
    Player 2's cell is the one cell marked [PLAYER2_POSITION].  When the two
    positions name different cells, player 1's cell is the one cell marked
    [PLAYER1_POSITION]; when they differ as pairs but name the same cell,
    player 2's mark has overwritten player 1's and no cell is marked
    [PLAYER1_POSITION]. *)
Theorem init_marks (n m : Z) (pos1 pos2 dir1 dir2 : vec) (b : t) :
  init n m pos1 pos2 dir1 dir2 = Ok b ->
  cell (board b) (wrap_position n m pos2) = Some PLAYER2_POSITION /\
  count_cells PLAYER2_POSITION (board b) = 1%nat /\
  (wrap_position n m pos1 <> wrap_position n m pos2 ->
   cell (board b) (wrap_position n m pos1) = Some PLAYER1_POSITION /\
   count_cells PLAYER1_POSITION (board b) = 1%nat) /\
  (wrap_position n m pos1 = wrap_position n m pos2 ->
   count_cells PLAYER1_POSITION (board b) = 0%nat).
Proof.
  rewrite init_eq.
  destruct (decide (pos1 = pos2)); [done|].
  destruct (Z.ltb_spec n 0), (Z.ltb_spec m 0); cbn [orb]; try done.
  destruct (decide _) as [[A1 A2]|]; [|done].
  intros [= <-]. cbn [board].
  set (z := mk_ndarray (n, m) (replicate (Z.to_nat (n * m)) 0)).
  set (q1 := wrap_position n m pos1). set (q2 := wrap_position n m pos2).
  assert (wf_array z) as Hwf by (by apply zeros_wf).
  assert (in_grid z q1) as G1 by (by apply (wrap_position_in_grid z)).
  assert (in_grid z q2) as G2 by (by apply (wrap_position_in_grid z)).
  assert (cell z q1 = Some EMPTY) as Z1 by (by apply zeros_cell).
  assert (cell z q2 = Some EMPTY) as Z2 by (by apply zeros_cell).
  assert (count_cells PLAYER1_POSITION z = 0%nat) as K1.
  { unfold count_cells, z. simpl. by rewrite count_replicate. }
  assert (count_cells PLAYER2_POSITION z = 0%nat) as K2.
  { unfold count_cells, z. simpl. by rewrite count_replicate. }
  assert (cell (put z q1 PLAYER1_POSITION) q1 = Some PLAYER1_POSITION) as C1.
  { apply cell_put_same. eauto. }
  assert (count_cells PLAYER1_POSITION (put z q1 PLAYER1_POSITION) = 1%nat) as K1'.
  { rewrite (count_put_add _ _ EMPTY) by done. by rewrite K1. }
  assert (count_cells PLAYER2_POSITION (put z q1 PLAYER1_POSITION) = 0%nat) as K2'.
  { rewrite (count_put_other _ _ EMPTY) by done. done. }
  destruct (decide (q1 = q2)) as [Heq|Hne].
  - rewrite <- Heq.
    split. { apply cell_put_same. eauto. }
    split. { rewrite (count_put_add _ _ PLAYER1_POSITION) by done. by rewrite K2'. }
    split; [done|]. intros _.
    pose proof (count_put_remove _ _ PLAYER2_POSITION _ C1 ltac:(done)) as Hrm.
    rewrite K1' in Hrm. lia.
  - assert (cell (put z q1 PLAYER1_POSITION) q2 = Some EMPTY) as C2.
    { by rewrite cell_put_ne. }
    split. { apply cell_put_same. eauto. }
    split. { rewrite (count_put_add _ _ EMPTY) by done. by rewrite K2'. }
    split; [|done]. intros _. split.
    + by rewrite cell_put_ne.
    + rewrite (count_put_other _ _ EMPTY) by done. done.
Qed.

(** On a 3x3 board (-1,-1) and (2,2) are the same corner: the board is
    built, and it has no cell for player 1. *)
Lemma init_marks_3x3 :
  is_ok (init 3 3 (-1, -1) (2, 2) (1, 0) (-1, 0)) = true /\
  forall b, init 3 3 (-1, -1) (2, 2) (1, 0) (-1, 0) = Ok b ->
            count_cells PLAYER1_POSITION (board b) = 0%nat /\
            count_cells PLAYER2_POSITION (board b) = 1%nat.
Proof.
  split; [reflexivity|]. intros b E.
  destruct (init_marks 3 3 (-1, -1) (2, 2) (1, 0) (-1, 0) b E)
    as (_ & H2 & _ & H4).
  split; [|exact H2]. apply H4. reflexivity.
Defined.

(** ** SimpleBot *)

Lemma valid_moves_elem (b : t) (pos d : vec) :
  d ∈ SimpleBot.valid_moves b pos <->
  unit_vector d = true /\ valid_move b (vec_add pos d) = true.
Proof.
  unfold SimpleBot.valid_moves, unit_vector.
  rewrite list_elem_of_In, filter_In, <- list_elem_of_In.
  by rewrite bool_decide_eq_true.
Qed.

Lemma decide_move_elem (r : nat) (b : t) (pos d : vec) :
  SimpleBot.decide_move r b pos = Some d -> d ∈ SimpleBot.valid_moves b pos.
Proof.
  unfold SimpleBot.decide_move.
  destruct (length _) eqn:El; [done|].
  intros H. by eapply list_elem_of_lookup_2.
Qed.

Lemma decide_move_None (r : nat) (b : t) (pos : vec) :
  SimpleBot.decide_move r b pos = None <-> SimpleBot.valid_moves b pos = [].
Proof.
  unfold SimpleBot.decide_move. split.
  - destruct (SimpleBot.valid_moves b pos) as [|x l] eqn:E; [done|].
    cbn [length]. intros H%lookup_ge_None.
    pose proof (Nat.mod_upper_bound r (length (x :: l))) as Hlt.
    cbn [length] in *. lia.
  - by intros ->.
Qed.

(** X10: what [SimpleBot.decide_move] returns.  A move it returns is one of
    the four unit vectors and leads to a cell [valid_move] accepts; it
    returns [None] exactly when none of the four neighbours is accepted; and
    every unit vector that leads to an accepted cell is returned for some
    draw of the generator. *)
Theorem simple_bot_moves (b : t) (pos : vec) :
  (forall (r : nat) (d : vec),
     SimpleBot.decide_move r b pos = Some d ->
     unit_vector d = true /\ valid_move b (vec_add pos d) = true) /\
  (forall r : nat,
     SimpleBot.decide_move r b pos = None <->
     forall d, unit_vector d = true -> valid_move b (vec_add pos d) = false) /\
  (forall d : vec,
     unit_vector d = true -> valid_move b (vec_add pos d) = true ->
     exists r : nat, SimpleBot.decide_move r b pos = Some d).
Proof.
  split; [|split].
  - intros r d H. by apply valid_moves_elem, (decide_move_elem r).
  - intros r. rewrite decide_move_None. split.
    + intros E d Hu. apply not_true_is_false. intros Hv.
      assert (d ∈ SimpleBot.valid_moves b pos) as Hin by (by apply valid_moves_elem).
      rewrite E in Hin. by apply elem_of_nil in Hin.
    + intros Hall.
      destruct (SimpleBot.valid_moves b pos) as [|x l] eqn:E; [done|].
      assert (x ∈ SimpleBot.valid_moves b pos) as Hin by (rewrite E; left).
      apply valid_moves_elem in Hin as [Hu Hv].
      rewrite (Hall x Hu) in Hv. done.
  - intros d Hu Hv.
    assert (d ∈ SimpleBot.valid_moves b pos) as Hin by (by apply valid_moves_elem).
    apply list_elem_of_lookup_1 in Hin as [i Hi].
    exists i. unfold SimpleBot.decide_move.
    pose proof (lookup_lt_Some _ _ _ Hi) as Hlt.
    destruct (length (SimpleBot.valid_moves b pos)) eqn:El; [lia|].
    by rewrite Nat.mod_small.
Qed.

(** On the 5x5 board player 1 is free on all sides: the draws 0 to 3 give
    the four directions in the order of the list; in the corner of the
    facing 3x3 board player 1 can only go down. *)
Lemma simple_bot_moves_5x5 :
  SimpleBot.decide_move 0 board_5x5 (1, 2) = Some (0, 1) /\
  valid_move board_5x5 (vec_add (1, 2) (0, 1)) = true /\
  SimpleBot.decide_move 7 board_3x3_facing (0, 0) = Some (0, 1) /\
  (exists r, SimpleBot.decide_move r board_5x5 (1, 2) = Some (-1, 0)).
Proof.
  destruct (simple_bot_moves board_5x5 (1, 2)) as (H1 & _ & H3).
  destruct (H1 0%nat (0, 1)) as [_ Hv]; [reflexivity|].
  split; [reflexivity|]. split; [exact Hv|]. split; [reflexivity|].
  apply H3; reflexivity.
Defined.

(** A cell [valid_move] accepts on a live board that satisfies the
    invariant is still accepted once the trails are marked. *)
Lemma valid_move_after_trails (b : t) (c : vec) :
  board_inv b -> gameover b = false ->
  valid_move b c = true ->
  valid_move
    (set_board (put (put (board b) (p1 b) VISITED1) (p2 b) VISITED2) b) c
  = true.
Proof.
  intros [Hwf Hinv] Hgo [Hg Hc]%valid_move_iff.
  destruct (Hinv Hgo) as (Hg1 & Hg2 & Hc1 & Hc2 & _).
  apply valid_move_iff. cbn [board set_board]. split; [done|].
  assert (c <> p1 b) as N1 by (intros E; by rewrite E, Hc1 in Hc).
  assert (c <> p2 b) as N2 by (intros E; by rewrite E, Hc2 in Hc).
  by rewrite !cell_put_ne.
Qed.

(** X11: two SimpleBots never run into a wall or a trail.  On a live board
    reached from a construction with both positions in the grid, when both
    bots find a move, [update] with these two moves returns without raising;
    it ends the game only if both aim at the same cell, as a draw, and
    otherwise both players advance and the game goes on. *)
Theorem simple_bots_only_die_head_on
    (n m : Z) (pos1 pos2 dir1 dir2 : vec) (b0 b : t)
    (r1 r2 : nat) (d1 d2 : vec) :
  inside n m pos1 -> inside n m pos2 ->
  init n m pos1 pos2 dir1 dir2 = Ok b0 ->
  reachable b0 b ->
  gameover b = false ->
  SimpleBot.decide_move r1 b (p1 b) = Some d1 ->
  SimpleBot.decide_move r2 b (p2 b) = Some d2 ->
  let b' := after_update b (Some d1) (Some d2) in
  (vec_add (p1 b) d1 = vec_add (p2 b) d2 ->
   (update (Some d1) (Some d2) b).1 = Ok false /\
   gameover b' = true /\ winner b' = None) /\
  (vec_add (p1 b) d1 <> vec_add (p2 b) d2 ->
   (update (Some d1) (Some d2) b).1 = Ok true /\
   gameover b' = false /\
   p1 b' = vec_add (p1 b) d1 /\ p2 b' = vec_add (p2 b) d2).
Proof.
  intros Hp1 Hp2 E Hr Hgo Hd1 Hd2 b'. subst b'.
  pose proof (reachable_inv b0 b (init_inv _ _ _ _ _ _ _ Hp1 Hp2 E) Hr) as Hinv.
  pose proof (board_inv_live_safe b Hinv Hgo) as Hs.
  apply decide_move_elem, valid_moves_elem in Hd1 as [U1 V1].
  apply decide_move_elem, valid_moves_elem in Hd2 as [U2 V2].
  apply unit_vector_passes in U1, U2.
  apply (valid_move_after_trails b _ Hinv Hgo) in V1, V2.
  unfold after_update. rewrite update_safe_eq by done.
  change (direction1 b (Some d1)) with d1.
  change (direction2 b (Some d2)) with d2.
  change (candidate1 b (Some d1)) with (vec_add (p1 b) d1) in *.
  change (candidate2 b (Some d2)) with (vec_add (p2 b) d2) in *.
  rewrite U1, U2. cbn [negb].
  split.
  - intros Heq%vec_eqb_eq. by rewrite Heq.
  - intros Hne%vec_eqb_neq. rewrite Hne. cbn zeta.
    rewrite V1, V2, settle_eq. cbn [negb fst snd gameover p1 p2 set_p1 set_p2
                                     set_board].
    by rewrite Hgo.
Qed.

Lemma simple_bots_only_die_head_on_5x5 :
  SimpleBot.decide_move 2 board_5x5 (p1 board_5x5) = Some (1, 0) /\
  SimpleBot.decide_move 3 board_5x5 (p2 board_5x5) = Some (-1, 0) /\
  (update (Some (1, 0)) (Some (-1, 0)) board_5x5).1 = Ok false /\
  winner (after_update board_5x5 (Some (1, 0)) (Some (-1, 0))) = None.
Proof.
  destruct (simple_bots_only_die_head_on 5 5 (1, 2) (3, 2) (1, 0) (-1, 0)
              board_5x5 board_5x5 2 3 (1, 0) (-1, 0)) as [H _].
  - unfold inside. simpl. lia.
  - unfold inside. simpl. lia.
  - reflexivity.
  - apply reach_start.
  - reflexivity.
  - reflexivity.
  - reflexivity.
  - destruct H as (H1 & _ & H3); [reflexivity|].
    split; [reflexivity|]. split; [reflexivity|]. split; [exact H1 | exact H3].
Defined.

(** ** Iterating over a game *)

Lemma next_ok (g g1 g' : TronGame.t) :
  TronGame.next g = (Ok g1, g') ->
  gameover (TronGame.board g) = false /\
  g1 = g' /\
  TronGame.bot1 g' = TronGame.bot1 g /\ TronGame.bot2 g' = TronGame.bot2 g /\
  exists m1 m2 r,
    update m1 m2 (TronGame.board g) = (Ok r, TronGame.board g').
Proof.
  unfold TronGame.next, TronGame.update.
  destruct (gameover (TronGame.board g)); [done|].
  destruct (update _ _ (TronGame.board g)) as [[r|e] b'] eqn:E; [|done].
  intros [= <- <-]. repeat split. by eexists _, _, _.
Qed.

Lemma next_raises (g g' : TronGame.t) (e : exn) :
  board_safe (TronGame.board g) ->
  TronGame.next g = (Raise e, g') ->
  g' = g /\ (e = StopIteration \/ e = ValueError).
Proof.
  intros Hs. unfold TronGame.next, TronGame.update.
  destruct (gameover (TronGame.board g)); [intros [= <- <-]; auto|].
  set (m1 := TronGame.bot1 g _ _). set (m2 := TronGame.bot2 g _ _).
  rewrite update_safe_eq by done.
  destruct (negb _).
  { intros [= <- <-]. split; [by destruct g | auto]. }
  destruct (negb _).
  { intros [= <- <-]. split; [by destruct g | auto]. }
  destruct (vec_eqb _ _); [done|].
  cbn zeta. rewrite settle_eq. by repeat case_match.
Qed.

Lemma nexts_bound (k : nat) (g : TronGame.t) :
  board_inv (TronGame.board g) ->
  is_ok (nexts k g).1 = true ->
  (2 * k <= count_cells EMPTY (board (TronGame.board g)) + 2)%nat.
Proof.
  revert g. induction k as [|k IH]; intros g Hinv; [simpl; lia|].
  cbn [nexts].
  destruct (TronGame.next g) as [[g1|e] g'] eqn:En; [|done].
  apply next_ok in En as (Hgo & _ & _ & _ & m1 & m2 & r & Eu).
  assert (after_update (TronGame.board g) m1 m2 = TronGame.board g') as Hb'
      by (unfold after_update; by rewrite Eu).
  assert (board_inv (TronGame.board g')) as Hinv'
      by (rewrite <- Hb'; by apply update_inv).
  intros Hok. destruct r.
  - assert ((update m1 m2 (TronGame.board g)).1 = Ok true) as Hret
        by (by rewrite Eu).
    pose proof (continuing_tick m1 m2 _ Hinv Hret) as H. cbn zeta in H.
    destruct H as (_ & _ & _ & _ & _ & _ & _ & _ & _ & _ & _ & Hcount).
    rewrite Hb' in Hcount. specialize (IH g' Hinv' Hok). lia.
  - assert (gameover (TronGame.board g') = true) as Hgo'.
    { rewrite <- Hb'.
      pose proof (update_returns_not_gameover m1 m2 (TronGame.board g) false
                    (board_inv_live_safe _ Hinv Hgo)) as H.
      rewrite Eu in H. specialize (H eq_refl).
      by destruct (gameover (after_update _ _ _)). }
    destruct k as [|k]; [lia|].
    cbn [nexts] in Hok. unfold TronGame.next in Hok.
    by rewrite Hgo' in Hok.
Qed.

Lemma nexts_raises (k : nat) (g g' : TronGame.t) (e : exn) :
  board_safe (TronGame.board g) ->
  nexts k g = (Raise e, g') ->
  e = StopIteration \/ e = ValueError.
Proof.
  revert g. induction k as [|k IH]; intros g Hs; [done|].
  cbn [nexts].
  destruct (TronGame.next g) as [[g1|e1] g1'] eqn:En.
  - apply next_ok in En as (_ & _ & _ & _ & m1 & m2 & r & Eu).
    apply IH.
    replace (TronGame.board g1') with (after_update (TronGame.board g) m1 m2)
      by (unfold after_update; by rewrite Eu).
    by apply update_safe.
  - intros [= <- <-]. by apply next_raises in En as [_ ?].
Qed.

(** X12: a loop over a [TronGame] always ends.  For a game whose board was
    constructed with both positions in an n x m grid, whatever the two bots
    decide, at most n*m/2 calls of [__next__] in a row return; the call that
    ends the loop raises [StopIteration], or the [ValueError] of a bot's
    invalid direction, and never [IndexError]. *)
Theorem game_loop_terminates
    (n m : Z) (pos1 pos2 dir1 dir2 : vec) (b0 : t)
    (bot1 bot2 : TronGame.bot) (k : nat) :
  inside n m pos1 -> inside n m pos2 ->
  init n m pos1 pos2 dir1 dir2 = Ok b0 ->
  (is_ok (nexts k (TronGame.mk b0 bot1 bot2)).1 = true ->
   2 * Z.of_nat k <= n * m) /\
  (n * m < 2 * Z.of_nat k ->
   (nexts k (TronGame.mk b0 bot1 bot2)).1 = Raise StopIteration \/
   (nexts k (TronGame.mk b0 bot1 bot2)).1 = Raise ValueError).
Proof.
  intros Hp1 Hp2 E.
  pose proof (init_inv _ _ _ _ _ _ _ Hp1 Hp2 E) as Hinv.
  pose proof (init_empty_cells _ _ _ _ _ _ _ Hp1 Hp2 E) as K0.
  destruct (init_safe _ _ _ _ _ _ _ Hp1 Hp2 E) as [Hs _].
  pose proof Hp1 as [? ?]. assert (0 <= n * m) by nia.
  assert (is_ok (nexts k (TronGame.mk b0 bot1 bot2)).1 = true ->
          2 * Z.of_nat k <= n * m) as Hbound.
  { intros Hok.
    pose proof (nexts_bound k (TronGame.mk b0 bot1 bot2) Hinv Hok) as Hb.
    cbn [TronGame.board] in Hb. lia. }
  split; [done|]. intros Hlong.
  destruct (nexts k (TronGame.mk b0 bot1 bot2)) as [[g1|e] g'] eqn:En.
  - cbn [fst is_ok] in Hbound. specialize (Hbound eq_refl). lia.
  - apply nexts_raises in En as [->| ->]; auto.
Qed.

(** Two bots that always go down, on the 5x5 board: the third call hits the
    bottom edge and ends the game, the fourth raises [StopIteration]. *)
Lemma game_loop_terminates_5x5 :
  let down : TronGame.bot := fun _ _ => Some (0, 1) in
  is_ok (nexts 3 (TronGame.mk board_5x5 down down)).1 = true /\
  (nexts 4 (TronGame.mk board_5x5 down down)).1 = Raise StopIteration /\
  ((nexts 13 (TronGame.mk board_5x5 down down)).1 = Raise StopIteration \/
   (nexts 13 (TronGame.mk board_5x5 down down)).1 = Raise ValueError).
Proof.
  intros down.
  split; [vm_compute; reflexivity|]. split; [vm_compute; reflexivity|].
  destruct (game_loop_terminates 5 5 (1, 2) (3, 2) (1, 0) (-1, 0) board_5x5
              down down 13) as [_ H].
  - unfold inside. simpl. lia.
  - unfold inside. simpl. lia.
  - reflexivity.
  - apply H. simpl. lia.
Defined.

(** ** Exchanging the players *)

Lemma swap_mark_empty (c : Z) : swap_mark c = EMPTY <-> c = EMPTY.
Proof.
  unfold swap_mark, EMPTY, PLAYER1_POSITION, PLAYER2_POSITION, VISITED1, VISITED2.
  destruct (Z.eqb_spec c 1), (Z.eqb_spec c 2), (Z.eqb_spec c 3),
    (Z.eqb_spec c 4); lia.
Qed.

Lemma cell_swap_array (a : ndarray) (p : vec) :
  cell (swap_array a) p = swap_mark <$> cell a p.
Proof. unfold cell, swap_array. simpl. apply list_lookup_fmap. Qed.

Lemma put_swap_array (a : ndarray) (p : vec) (v : Z) :
  swap_array (put a p v) = put (swap_array a) p (swap_mark v).
Proof. unfold swap_array, put. simpl. by rewrite list_fmap_insert. Qed.

Lemma put_comm (a : ndarray) (p q : vec) (v w : Z) :
  in_grid a p -> in_grid a q -> p <> q ->
  put (put a p v) q w = put (put a q w) p v.
Proof.
  intros Hp Hq Hne. unfold put. simpl. f_equal.
  apply list_insert_insert_ne. intros E. by apply ravel_inj in E.
Qed.

Lemma valid_move_swap (s s' : t) (c : vec) :
  board s' = swap_array (board s) -> valid_move s' c = valid_move s c.
Proof.
  intros E. apply eq_iff_eq_true. rewrite !valid_move_iff, E.
  change (in_grid (swap_array (board s)) c) with (in_grid (board s) c).
  rewrite cell_swap_array.
  split; intros [Hg Hc]; (split; [done|]).
  - destruct (cell (board s) c) as [x|]; [|done].
    cbn [fmap option_fmap option_map] in Hc. injection Hc as Hc.
    apply (proj1 (swap_mark_empty x)) in Hc. by rewrite Hc.
  - rewrite Hc. reflexivity.
Qed.

Lemma swap_players_safe (b : t) : board_safe b -> board_safe (swap_players b).
Proof.
  intros ((Hn & Hm & Hlen) & Hg1 & Hg2).
  split; [|done]. unfold wf_array, swap_players, swap_array. simpl.
  by rewrite length_fmap.
Qed.

Lemma vec_eqb_sym (a b : vec) : vec_eqb a b = vec_eqb b a.
Proof. unfold vec_eqb. by rewrite (Z.eqb_sym a.1), (Z.eqb_sym a.2). Qed.

(** X13: no hidden asymmetry.  On a safe board whose players stand on
    different coordinates, exchanging the players (positions, directions,
    marks and winner) and the two arguments of [update] gives the same
    result and the exchanged board: which player the code moves first makes
    no difference. *)
Theorem update_is_symmetric (b : t) (m1 m2 : option vec) :
  board_safe b -> p1 b <> p2 b ->
  update m2 m1 (swap_players b)
  = ((update m1 m2 b).1, swap_players (after_update b m1 m2)).
Proof.
  intros Hs Hne. pose proof Hs as (Hwf & Hg1 & Hg2).
  unfold after_update.
  rewrite (update_safe_eq m2 m1 (swap_players b)) by (by apply swap_players_safe).
  rewrite (update_safe_eq m1 m2 b) by done.
  change (direction1 (swap_players b) m2) with (direction2 b m2).
  change (direction2 (swap_players b) m1) with (direction1 b m1).
  change (candidate1 (swap_players b) m2) with (candidate2 b m2).
  change (candidate2 (swap_players b) m1) with (candidate1 b m1).
  destruct (passes_validation (direction1 b m1)),
    (passes_validation (direction2 b m2)); cbn [negb]; try done.
  rewrite (vec_eqb_sym (candidate2 b m2)).
  destruct (vec_eqb _ _) eqn:Hho; [done|]. apply vec_eqb_neq in Hho.
  cbn zeta. cbn [board p1 p2 swap_players set_board].
  set (c1 := candidate1 b m1) in *. set (c2 := candidate2 b m2) in *.
  set (A := put (put (board b) (p1 b) VISITED1) (p2 b) VISITED2).
  assert (put (put (swap_array (board b)) (p2 b) VISITED1) (p1 b) VISITED2
          = swap_array A) as HA.
  { unfold A. rewrite !put_swap_array. by apply put_comm. }
  rewrite HA.
  rewrite (valid_move_swap (set_board A b) _ c1) by done.
  rewrite (valid_move_swap (set_board A b) _ c2) by done.
  rewrite !settle_eq.
  destruct (valid_move (set_board A b) c1) eqn:V1;
    destruct (valid_move (set_board A b) c2) eqn:V2;
    try (apply valid_move_iff in V1 as [G1 _]);
    try (apply valid_move_iff in V2 as [G2 _]);
    cbn [negb fst snd board gameover winner p1 p2 v1 v2 set_board set_p1
           set_p2 set_gameover set_winner swap_players swap_winner];
    unfold swap_players;
    cbn [negb fst snd board gameover winner p1 p2 v1 v2 set_board set_p1
           set_p2 set_gameover set_winner swap_winner];
    rewrite ?put_swap_array; try done.
  rewrite (put_comm (swap_array A) c2 c1) by done. done.
Qed.

Lemma update_is_symmetric_3x3 :
  update (Some (0, 1)) (Some (-1, 0)) (swap_players board_3x3)
  = (Ok false,
     swap_players (after_update board_3x3 (Some (-1, 0)) (Some (0, 1)))) /\
  winner (after_update board_3x3 (Some (-1, 0)) (Some (0, 1))) = Some 2 /\
  winner (update (Some (0, 1)) (Some (-1, 0)) (swap_players board_3x3)).2
  = Some 1.
Proof.
  assert (board_safe board_3x3) as Hs.
  { split; [|split].
    - unfold wf_array. simpl. split; [lia|]. split; [lia|]. reflexivity.
    - unfold in_grid, inside. simpl. lia.
    - unfold in_grid, inside. simpl. lia. }
  assert (p1 board_3x3 <> p2 board_3x3) as Hne by (vm_compute; congruence).
  pose proof (update_is_symmetric board_3x3 (Some (-1, 0)) (Some (0, 1)) Hs Hne)
    as H.
  split; [exact H|]. split; [reflexivity|].
  rewrite H. reflexivity.
Defined.

(** ** Reading the outcome off the board before the tick *)

Lemma valid_move_trails (b : t) (c : vec) :
  board_inv b -> gameover b = false ->
  valid_move
    (set_board (put (put (board b) (p1 b) VISITED1) (p2 b) VISITED2) b) c
  = valid_move b c.
Proof.
  intros Hinv Hgo.
  destruct (valid_move b c) eqn:V; [by apply valid_move_after_trails|].
  apply not_true_is_false. intros [Hg Hc]%valid_move_iff.
  destruct Hinv as [Hwf Hinv].
  destruct (Hinv Hgo) as (Hg1 & Hg2 & Hc1 & Hc2 & _).
  cbn [board set_board] in Hg, Hc.
  set (a1 := put (board b) (p1 b) VISITED1) in *.
  assert (cell a1 (p1 b) = Some VISITED1) as A11.
  { apply cell_put_same. eauto. }
  assert (cell a1 (p2 b) = Some PLAYER2_POSITION) as A12.
  { by apply (cell_put_other _ _ _ _ PLAYER1_POSITION). }
  assert (cell (put a1 (p2 b) VISITED2) (p2 b) = Some VISITED2) as A22.
  { apply cell_put_same. eauto. }
  assert (cell (put a1 (p2 b) VISITED2) (p1 b) = Some VISITED1) as A21.
  { by apply (cell_put_other _ _ _ _ PLAYER2_POSITION). }
  assert (c <> p1 b) as N1 by (intros E; by rewrite E, A21 in Hc).
  assert (c <> p2 b) as N2 by (intros E; by rewrite E, A22 in Hc).
  unfold a1 in Hc. rewrite !cell_put_ne in Hc by done.
  assert (valid_move b c = true) as V' by (by apply valid_move_iff).
  congruence.
Qed.

Lemma reachable_live_no_winner (b0 b : t) :
  board_safe b0 -> winner b0 = None -> reachable b0 b ->
  gameover b = false -> winner b = None.
Proof.
  intros Hs0 Hw0 Hr.
  assert ((gameover b = false -> winner b = None) /\
          (winner b = None \/ winner b = Some 1 \/ winner b = Some 2)) as [H _];
    [|done].
  induction Hr as [|b m1 m2 Hr IH]; [by split; [|left]|].
  destruct IH as [IH1 IH2].
  apply update_winner_inv; [by eapply reachable_safe|done..].
Qed.

(** X14: on a live board reached from a construction with both positions in
    the grid, with directions that pass the check and candidates that
    differ, the outcome of [update] can be read off [valid_move] on the
    board before the tick: a player advances exactly when [valid_move]
    accepts its candidate there and otherwise stays and dies; the game goes
    on exactly when both are accepted; the winner is the one accepted when
    the other is not. *)
Theorem outcome_from_valid_move
    (n m : Z) (pos1 pos2 dir1 dir2 : vec) (b0 b : t) (m1 m2 : option vec) :
  inside n m pos1 -> inside n m pos2 ->
  init n m pos1 pos2 dir1 dir2 = Ok b0 ->
  reachable b0 b ->
  gameover b = false ->
  passes_validation (direction1 b m1) = true ->
  passes_validation (direction2 b m2) = true ->
  candidate1 b m1 <> candidate2 b m2 ->
  let ok1 := valid_move b (candidate1 b m1) in
  let ok2 := valid_move b (candidate2 b m2) in
  let b' := after_update b m1 m2 in
  (update m1 m2 b).1 = Ok (ok1 && ok2) /\
  gameover b' = negb (ok1 && ok2) /\
  winner b' = (if ok1 then if ok2 then None else Some 1
               else if ok2 then Some 2 else None) /\
  p1 b' = (if ok1 then candidate1 b m1 else p1 b) /\
  p2 b' = (if ok2 then candidate2 b m2 else p2 b).
Proof.
  intros Hp1 Hp2 E Hr Hgo H1 H2 Hne%vec_eqb_neq ok1 ok2 b'.
  subst ok1 ok2 b'.
  pose proof (reachable_inv b0 b (init_inv _ _ _ _ _ _ _ Hp1 Hp2 E) Hr) as Hinv.
  pose proof (board_inv_live_safe b Hinv Hgo) as Hs.
  destruct (init_safe _ _ _ _ _ _ _ Hp1 Hp2 E) as [Hs0 _].
  assert (winner b = None) as Hw.
  { apply (reachable_live_no_winner b0 b); try done.
    unfold init in E. repeat case_match; try done. by injection E as <-. }
  unfold after_update. rewrite update_safe_eq by done.
  rewrite H1, H2, Hne. cbn [negb]. cbn zeta.
  rewrite !(valid_move_trails b) by done.
  rewrite settle_eq.
  destruct (valid_move b (candidate1 b m1)), (valid_move b (candidate2 b m2));
    cbn [negb andb fst snd gameover winner p1 p2 set_p1 set_p2 set_board
           set_gameover set_winner]; rewrite ?Hgo; done.
Qed.

Lemma outcome_from_valid_move_3x3 :
  valid_move board_3x3 (candidate1 board_3x3 (Some (-1, 0))) = false /\
  valid_move board_3x3 (candidate2 board_3x3 (Some (0, 1))) = true /\
  (update (Some (-1, 0)) (Some (0, 1)) board_3x3).1 = Ok false /\
  winner (after_update board_3x3 (Some (-1, 0)) (Some (0, 1))) = Some 2 /\
  p1 (after_update board_3x3 (Some (-1, 0)) (Some (0, 1))) = (0, 0) /\
  p2 (after_update board_3x3 (Some (-1, 0)) (Some (0, 1))) = (2, 1).
Proof.
  destruct (outcome_from_valid_move 3 3 (0, 0) (2, 0) (1, 0) (-1, 0)
              board_3x3 board_3x3 (Some (-1, 0)) (Some (0, 1)))
    as (H1 & _ & H3 & H4 & H5).
  - unfold inside. simpl. lia.
  - unfold inside. simpl. lia.
  - reflexivity.
  - apply reach_start.
  - reflexivity.
  - reflexivity.
  - reflexivity.
  - vm_compute. congruence.
  - split; [reflexivity|]. split; [reflexivity|].
    split; [exact H1|]. split; [exact H3|]. split; [exact H4 | exact H5].
Defined.
